(** * ddtrace.contrib.elasticsearch.patch: a shallow embedding

    The module wraps [Transport.perform_request] of the installed
    elasticsearch client variants so that every request opens a span,
    tags it, delegates to the original method and tags the result.

    Conventions of the embedding:
    - a Python [str] is a Rocq [string] holding its UTF-8 encoding, a
      [bytes] object is a [string] holding its bytes;
    - Python objects that flow through the module untyped are values of
      [pyval]; floating point numbers are outside the model;
    - code that can raise returns an [outcome];
    - the span is owned by the tracer: the embedding records, in order,
      the operations the module performs on it. *)

From Stdlib Require Import ZArith NArith String Ascii List Bool Lia DecimalString.
From stdpp Require Import base strings gmap.
Import ListNotations.

Set Warnings "-register-all".

Local Open Scope string_scope.
Local Open Scope Z_scope.

(** ** Python values and exceptions *)

Inductive pyval : Type :=
| VNone
| VBool (b : bool)
| VInt (n : Z)
| VStr (s : string)
| VBytes (b : string)
| VTuple (l : list pyval)
| VList (l : list pyval)
| VDict (d : list (pyval * pyval)).

(** A Python dict keeps insertion order: an association list without
    duplicate keys. *)
Abbreviation dict := (list (pyval * pyval)).

Inductive exn : Type :=
| ValueError (msg : string)
| TypeError (msg : string)
| AttributeError (msg : string)
| UnicodeDecodeError (msg : string)
| ImportError (name : string)
(* an instance of [elasticsearch.exceptions.TransportError] or of one of
   its subclasses [cls]; [status_code] is the attribute, when the class
   has it *)
| TransportError (cls : string) (status_code : option pyval) (info : list pyval)
| OtherError (cls : string) (info : list pyval).

Inductive outcome (A : Type) : Type :=
| Return (a : A)
| Raise (e : exn).
Arguments Return {A} a.
Arguments Raise {A} e.

Definition obind {A B} (m : outcome A) (k : A -> outcome B) : outcome B :=
  match m with
  | Return a => k a
  | Raise e => Raise e
  end.

#[global] Instance outcome_ret : MRet outcome := @Return.
#[global] Instance outcome_bind : MBind outcome := fun A B k m => obind m k.

(** [for x in xs: acc = body(acc, x)], stopping at the first raise. *)
Fixpoint for_each {A S} (body : S -> A -> outcome S) (xs : list A) (acc : S)
  : outcome S :=
  match xs with
  | [] => Return acc
  | x :: rest => obind (body acc x) (for_each body rest)
  end.

(** *** Truthiness, equality, hashing *)

Definition nonempty_string (s : string) : bool :=
  match s with EmptyString => false | String _ _ => true end.

Definition nonempty_list {A} (l : list A) : bool :=
  match l with [] => false | _ :: _ => true end.

(** [bool(v)] *)
Definition truthy (v : pyval) : bool :=
  match v with
  | VNone => false
  | VBool b => b
  | VInt n => negb (n =? 0)
  | VStr s => nonempty_string s
  | VBytes b => nonempty_string b
  | VTuple l => nonempty_list l
  | VList l => nonempty_list l
  | VDict d => nonempty_list d
  end.

Definition Z_of_bool (b : bool) : Z := if b then 1 else 0.

(** [a == b]; [True == 1] and [False == 0] as in Python. *)
Fixpoint py_eq (a b : pyval) {struct a} : bool :=
  let fix all_eq (l1 l2 : list pyval) {struct l1} : bool :=
    match l1, l2 with
    | [], [] => true
    | x :: l1', y :: l2' => py_eq x y && all_eq l1' l2'
    | _, _ => false
    end in
  let fix sub_dict (d1 d2 : dict) {struct d1} : bool :=
    match d1 with
    | [] => true
    | (k, v) :: d1' =>
        (let fix find (d : dict) : bool :=
           match d with
           | [] => false
           | (k2, v2) :: d' => if py_eq k k2 then py_eq v v2 else find d'
           end in find d2) && sub_dict d1' d2
    end in
  match a, b with
  | VNone, VNone => true
  | VBool x, VBool y => Bool.eqb x y
  | VBool x, VInt y => Z_of_bool x =? y
  | VInt x, VBool y => x =? Z_of_bool y
  | VInt x, VInt y => x =? y
  | VStr x, VStr y => String.eqb x y
  | VBytes x, VBytes y => String.eqb x y
  | VTuple x, VTuple y => all_eq x y
  | VList x, VList y => all_eq x y
  | VDict x, VDict y => (length x =? length y)%nat && sub_dict x y
  | _, _ => false
  end.

(** [type(v).__name__] *)
Definition type_name (v : pyval) : string :=
  match v with
  | VNone => "NoneType"
  | VBool _ => "bool"
  | VInt _ => "int"
  | VStr _ => "str"
  | VBytes _ => "bytes"
  | VTuple _ => "tuple"
  | VList _ => "list"
  | VDict _ => "dict"
  end.

(** Why [hash(v)] fails, if it does: lists and dicts are unhashable, and
    a tuple is as soon as one of its items is; the answer is the type
    that Python names in the [TypeError]. *)
Fixpoint unhashable_type (v : pyval) : option string :=
  match v with
  | VList _ => Some "list"
  | VDict _ => Some "dict"
  | VTuple l =>
      (fix first_unhashable (l : list pyval) : option string :=
         match l with
         | [] => None
         | x :: l' =>
             match unhashable_type x with
             | Some t => Some t
             | None => first_unhashable l'
             end
         end) l
  | _ => None
  end.

(** [obj.name] where the type of [obj] has no such attribute. *)
Definition no_attribute (v : pyval) (name : string) : exn :=
  AttributeError ("'" ++ type_name v ++ "' object has no attribute '" ++ name ++ "'").

(** *** Dictionaries *)

(** [d.get(k)] for a hashable key; [VNone] when the key is missing. *)
Fixpoint dict_get (d : dict) (k : pyval) : pyval :=
  match d with
  | [] => VNone
  | (k', v) :: d' => if py_eq k' k then v else dict_get d' k
  end.

(** An existing key keeps its place, a new key goes last. *)
Fixpoint dict_store (d : dict) (k v : pyval) : dict :=
  match d with
  | [] => [(k, v)]
  | (k', v') :: d' =>
      if py_eq k' k then (k', v) :: d' else (k', v') :: dict_store d' k v
  end.

(** [d[k] = v] *)
Definition dict_setitem (d : dict) (k v : pyval) : outcome dict :=
  match unhashable_type k with
  | None => Return (dict_store d k v)
  | Some t => Raise (TypeError ("unhashable type: '" ++ t ++ "'"))
  end.

(** [kwargs.get(name)]: keyword arguments are keyed by strings. *)
Fixpoint kwargs_get (kwargs : list (string * pyval)) (name : string) : pyval :=
  match kwargs with
  | [] => VNone
  | (n, v) :: rest => if String.eqb n name then v else kwargs_get rest name
  end.

(** *** Strings *)

(** [s.split(sep)] for a one-character separator: never empty. *)
Fixpoint split (sep : ascii) (s : string) : list string :=
  match s with
  | EmptyString => [EmptyString]
  | String c rest =>
      if Ascii.eqb c sep then EmptyString :: split sep rest
      else match split sep rest with
           | [] => [String c EmptyString]
           | w :: ws => String c w :: ws
           end
  end.

(** [sep.join(parts)] *)
Fixpoint join (sep : string) (parts : list string) : string :=
  match parts with
  | [] => EmptyString
  | [p] => p
  | p :: rest => p ++ sep ++ join sep rest
  end.

(** [s.partition(sep)]: the text before the first [sep] and, when there
    is one, the text after it. *)
Fixpoint partition (sep : ascii) (s : string) : string * option string :=
  match s with
  | EmptyString => (EmptyString, None)
  | String c rest =>
      if Ascii.eqb c sep then (EmptyString, Some rest)
      else let '(before, after) := partition sep rest in
           (String c before, after)
  end.

Definition code (c : ascii) : N := N_of_ascii c.

Definition in_range (lo hi n : N) : bool := ((lo <=? n) && (n <=? hi))%N.

Definition is_digit (c : ascii) : bool := in_range 48 57 (code c).
Definition is_upper (c : ascii) : bool := in_range 65 90 (code c).
Definition is_lower (c : ascii) : bool := in_range 97 122 (code c).
Definition is_alpha (c : ascii) : bool := is_upper c || is_lower c.

Definition to_lower (c : ascii) : ascii :=
  if is_upper c then ascii_of_N (code c + 32) else c.

Fixpoint string_map (f : ascii -> ascii) (s : string) : string :=
  match s with
  | EmptyString => EmptyString
  | String c rest => String (f c) (string_map f rest)
  end.

Fixpoint string_forall (p : ascii -> bool) (s : string) : bool :=
  match s with
  | EmptyString => true
  | String c rest => p c && string_forall p rest
  end.

Fixpoint string_mem (c : ascii) (s : string) : bool :=
  match s with
  | EmptyString => false
  | String c' rest => Ascii.eqb c' c || string_mem c rest
  end.

Definition hex_value (c : ascii) : option N :=
  if is_digit c then Some (code c - 48)%N
  else if in_range 65 70 (code c) then Some (code c - 55)%N
  else if in_range 97 102 (code c) then Some (code c - 87)%N
  else None.

Definition hex_digit (n : N) : ascii :=
  if (n <? 10)%N then ascii_of_N (48 + n) else ascii_of_N (55 + n).

(** [bytes.decode("utf-8")]: the bytes must be well-formed UTF-8; the
    resulting [str] holds the same bytes. *)
Fixpoint utf8_valid (b : list N) : bool :=
  match b with
  | [] => true
  | b0 :: r0 =>
      if (b0 <=? 127)%N then utf8_valid r0
      else match r0 with
      | [] => false
      | b1 :: r1 =>
          if in_range 194 223 b0 then in_range 128 191 b1 && utf8_valid r1
          else match r1 with
          | [] => false
          | b2 :: r2 =>
              if in_range 224 239 b0 then
                (if (b0 =? 224)%N then in_range 160 191 b1
                 else if (b0 =? 237)%N then in_range 128 159 b1
                 else in_range 128 191 b1)
                && in_range 128 191 b2 && utf8_valid r2
              else match r2 with
              | [] => false
              | b3 :: r3 =>
                  in_range 240 244 b0
                  && (if (b0 =? 240)%N then in_range 144 191 b1
                      else if (b0 =? 244)%N then in_range 128 143 b1
                      else in_range 128 191 b1)
                  && in_range 128 191 b2 && in_range 128 191 b3
                  && utf8_valid r3
              end
          end
      end
  end.

Fixpoint bytes_of (s : string) : list N :=
  match s with
  | EmptyString => []
  | String c rest => code c :: bytes_of rest
  end.

Definition decode_utf8 (b : string) : outcome string :=
  if utf8_valid (bytes_of b) then Return b
  else Raise (UnicodeDecodeError "'utf-8' codec can't decode bytes").

(** ** URLs *)

(** *** [urllib.parse.urlparse]

    The six components of a URL, after CPython's [urlsplit] and
    [urlparse]: an optional scheme, a network location introduced by
    [//], then fragment, query and the [;parameters] of the last path
    segment.  CPython 3.11 is followed; its validation of bracketed hosts
    and its removal of control characters are not modelled. *)
Record ParseResult : Type := mkParseResult {
  scheme : string;
  netloc : string;
  path : string;
  params : string;
  query : string;
  fragment : string
}.

Definition is_scheme_char (c : ascii) : bool :=
  is_alpha c || is_digit c || string_mem c "+-.".

Definition uses_params : list string :=
  [""; "ftp"; "hdl"; "prospero"; "http"; "imap"; "https"; "shttp"; "rtsp";
   "rtspu"; "sip"; "sips"; "mms"; "sftp"; "tel"].

Definition split_scheme (url : string) : string * string :=
  match url with
  | EmptyString => (EmptyString, url)
  | String c0 _ =>
      match partition ":" url with
      | (before, Some after) =>
          if is_alpha c0 && string_forall is_scheme_char before
          then (string_map to_lower before, after)
          else (EmptyString, url)
      | (_, None) => (EmptyString, url)
      end
  end.

(** The text up to the first of [/], [?] and [#], and the rest with
    its delimiter. *)
Fixpoint split_netloc (s : string) : string * string :=
  match s with
  | EmptyString => (EmptyString, EmptyString)
  | String c rest =>
      if string_mem c "/?#" then (EmptyString, s)
      else let '(n, r) := split_netloc rest in (String c n, r)
  end.

Definition from_option_string (o : option string) : string :=
  match o with Some s => s | None => EmptyString end.

(** [_splitparams]: the [;parameters] of the last path segment. *)
Fixpoint splitparams (url : string) : string * option string :=
  match url with
  | EmptyString => (EmptyString, None)
  | String c rest =>
      if string_mem "/" rest then
        let '(p, q) := splitparams rest in (String c p, q)
      else if Ascii.eqb c ";" then (EmptyString, Some rest)
      else let '(p, q) := partition ";" rest in (String c p, q)
  end.

Definition urlparse (url : string) : ParseResult :=
  let '(sch, url1) := split_scheme url in
  let '(loc, url2) :=
    match url1 with
    | String "/" (String "/" rest) => split_netloc rest
    | _ => (EmptyString, url1)
    end in
  let '(url3, frag) := partition "#" url2 in
  let '(url4, qry) := partition "?" url3 in
  let '(url5, prm) :=
    if existsb (String.eqb sch) uses_params then splitparams url4
    else (url4, None) in
  mkParseResult sch loc url5 (from_option_string prm)
                (from_option_string qry) (from_option_string frag).

(** *** Percent-encoding *)

(** Modelled from the spec: [urldecode] of ddtrace.internal.compat, which
    is not part of the sources at hand; the spec has the parser map each
    name to its URL-decoded value, so every [%XX] escape becomes the byte
    it denotes and everything else is kept. *)
Fixpoint urldecode (s : string) : string :=
  match s with
  | EmptyString => EmptyString
  | String c rest =>
      if Ascii.eqb c "%" then
        match rest with
        | String h (String l rest') =>
            match hex_value h, hex_value l with
            | Some a, Some b => String (ascii_of_N (16 * a + b)) (urldecode rest')
            | _, _ => String c (urldecode rest)
            end
        | _ => String c (urldecode rest)
        end
      else String c (urldecode rest)
  end.

Definition is_unreserved (c : ascii) : bool :=
  is_alpha c || is_digit c || string_mem c "_.-~".

(** [quote_plus(s, safe='')] *)
Fixpoint quote_plus (s : string) : string :=
  match s with
  | EmptyString => EmptyString
  | String c rest =>
      if is_unreserved c then String c (quote_plus rest)
      else if Ascii.eqb c " " then String "+" (quote_plus rest)
      else String "%" (String (hex_digit (code c / 16))
             (String (hex_digit (code c mod 16)) (quote_plus rest)))
  end.

(** What the Python runtime provides and the embedding leaves open:
    [repr] of a value and [int] of a string. *)
Class PyBuiltins : Type := {
  py_repr : pyval -> string;
  int_of_str : string -> outcome Z
}.

Section Builtins.
Context `{PyBuiltins}.

(** [str(v)] *)
Definition py_str (v : pyval) : string :=
  match v with
  | VStr s => s
  | VInt n => NilZero.string_of_int (Z.to_int n)
  | VBool true => "True"
  | VBool false => "False"
  | VNone => "None"
  | _ => py_repr v
  end.

(** [int(v)] *)
Definition py_int (v : pyval) : outcome Z :=
  match v with
  | VInt n => Return n
  | VBool b => Return (Z_of_bool b)
  | VStr s => int_of_str s
  | VBytes b => int_of_str b
  | _ => Raise (TypeError ("int() argument must be a string, a bytes-like object or a real number, not '"
                         ++ type_name v ++ "'"))
  end.

Definition quote_item (v : pyval) : string :=
  match v with
  | VBytes b => quote_plus b
  | _ => quote_plus (py_str v)
  end.

(** Modelled from the spec: [urlencode] of ddtrace.internal.compat, which
    is not part of the sources at hand; the spec has the pairs joined
    with [&], each pair [key=value], keys and values URL-encoded.  A
    value that is not a mapping is refused. *)
Definition urlencode (q : pyval) : outcome string :=
  match q with
  | VDict d =>
      Return (join "&" (map (fun kv => quote_item (fst kv) ++ "=" ++ quote_item (snd kv)) d))
  | _ => Raise (TypeError "not a valid non-string sequence or mapping object")
  end.

End Builtins.

(** ** The 8.x URL/Param parser *)

(** The body of the loop over [params_list]. *)
Definition parse_param (acc : dict) (param : string) : outcome dict :=
  let kv := split "=" param in
  if (1 <? length kv)%nat then
    match kv with
    | [k; v] =>
        if nonempty_string k then dict_setitem acc (VStr k) (VStr (urldecode v))
        else Return acc
    | _ => Raise (ValueError "too many values to unpack (expected 2)")
    end
  else if (length kv =? 1)%nat then
    (* [k = kv]: the key is the list itself *)
    let k := VList (map VStr kv) in
    dict_setitem acc k (VStr "")
  else Return acc.

Definition _parse_elasticsearch8_urlparams (url : string)
  : outcome (string * dict) :=
  let parsed_url := urlparse url in
  let url := path parsed_url in
  let query_params := query parsed_url in
  params ← (if nonempty_string query_params
            then for_each parse_param (split "&" query_params) []
            else Return []);
  Return (url, params).

(** The number of occurrences of a character. *)
Fixpoint count_char (c : ascii) (s : string) : nat :=
  match s with
  | EmptyString => O
  | String c' rest => (if Ascii.eqb c' c then 1 else 0) + count_char c rest
  end.

(** The computation ends in an exception. *)
Definition is_raise {A} (r : outcome A) : Prop :=
  match r with Raise _ => True | Return _ => False end.

(** ** Collaborators of the interceptor *)

(** Tag and metric names of ddtrace.ext and ddtrace.constants. *)
Module metadata.
Definition METHOD : string := "elasticsearch.method".
Definition URL : string := "elasticsearch.url".
Definition PARAMS : string := "elasticsearch.params".
Definition BODY : string := "elasticsearch.body".
Definition TOOK : string := "elasticsearch.took".
End metadata.

Module http.
Definition STATUS_CODE : string := "http.status_code".
Definition QUERY_STRING : string := "http.query.string".
End http.

Module SpanTypes.
Definition ELASTICSEARCH : string := "elasticsearch".
End SpanTypes.

Definition ANALYTICS_SAMPLE_RATE_KEY : string := "_dd1.sr.eausr".
Definition SPAN_MEASURED_KEY : string := "_dd.measured".

(** What the module does to a span, one entry per call. *)
Inductive span_op : Type :=
| SetTag (key : string) (value : pyval)
| SetMetric (key : string) (value : Z)
| SetError (value : Z)
| Quantize.

(** Modelled from the spec: the span of the tracer (ddtrace.span is not
    part of the sources at hand).  It is externally owned; the module only
    reads its sampling decision and sets tags, metrics and the error flag
    on it, so the span carries the operations performed on it, oldest
    first, and whether its lifetime has ended. *)
Record Span : Type := mkSpan {
  span_name : string;
  span_service : option string;
  span_type : string;
  sampled : bool;
  ops : list span_op;
  finished : bool
}.

Definition record_op (span : Span) (op : span_op) : Span :=
  mkSpan (span_name span) (span_service span) (span_type span)
         (sampled span) (ops span ++ [op]) (finished span).

Definition set_tag (span : Span) (key : string) (value : pyval) : Span :=
  record_op span (SetTag key value).
Definition set_metric (span : Span) (key : string) (value : Z) : Span :=
  record_op span (SetMetric key value).
Definition set_error (span : Span) (value : Z) : Span :=
  record_op span (SetError value).
(** [quantize(span)] of ddtrace.contrib.elasticsearch.quantize: an opaque
    transform of the span, recorded as such. *)
Definition quantize (span : Span) : Span := record_op span Quantize.

Definition finish (span : Span) : Span :=
  mkSpan (span_name span) (span_service span) (span_type span)
         (sampled span) (ops span) true.

(** Modelled from the spec: the tracer, as far as the module consumes it:
    whether it is enabled, and the sampling decision it takes for a new
    span of a given name, service and type. *)
Record Tracer : Type := mkTracer {
  enabled : bool;
  sampler : string -> option string -> string -> bool
}.

(** The span a tracer opens: nothing done to it yet, not closed. *)
Definition start_span (t : Tracer) (name : string) (svc : option string)
    (ty : string) : Span :=
  mkSpan name svc ty (sampler t name svc ty) [] false.

(** Modelled from the spec: the Tracing Association (ddtrace.pin is not
    part of the sources at hand): a link to a tracer and a service name,
    attached to a transport class or instance. *)
Record Pin : Type := mkPin {
  service : option string;
  tracer : option Tracer
}.

(** [pin.enabled()] *)
Definition Pin_enabled (pin : Pin) : bool :=
  match tracer pin with
  | Some t => enabled t
  | None => false
  end.

(** [config.elasticsearch] *)
Record Config : Type := mkConfig {
  _default_service : string;
  config_service : option string;
  trace_query_string : bool;
  (* what [get_analytics_sample_rate()] returns *)
  analytics_sample_rate : pyval
}.

(** Modelled from the spec: [ext_service] of ddtrace.contrib.trace_utils:
    the configured service name, or else the default one. *)
Definition ext_service (pin : Pin) (int_config : Config) : option string :=
  match service pin with
  | Some s => Some s
  | None =>
      match config_service int_config with
      | Some s => Some s
      | None => Some (_default_service int_config)
      end
  end.

Record Serializer : Type := mkSerializer {
  dumps : pyval -> outcome pyval
}.

(** The transport instance a call is intercepted on: the pin attached to
    it, if any, and the serializers reachable from it. *)
Record Transport : Type := mkTransport {
  instance_pin : option Pin;
  (* [instance.serializer] *)
  serializer : option Serializer;
  (* [instance.serializers.default_serializer] *)
  default_serializer : option Serializer
}.

(** [Pin.get_from(instance)] *)
Definition Pin_get_from (instance : Transport) : option Pin :=
  instance_pin instance.

(** Tuples compare lexicographically: [a >= b]. *)
Fixpoint tuple_ge (a b : list Z) : bool :=
  match a, b with
  | _, [] => true
  | [], _ :: _ => false
  | x :: a', y :: b' => if x =? y then tuple_ge a' b' else y <? x
  end.

(** [value.decode("utf-8")]: only [bytes] has the method. *)
Definition py_decode (v : pyval) : outcome pyval :=
  match v with
  | VBytes b => s ← decode_utf8 b; Return (VStr s)
  | _ => Raise (no_attribute v "decode")
  end.

(** [data.get("took")]: only a dict has the method. *)
Definition py_get (data : pyval) (key : string) : outcome pyval :=
  match data with
  | VDict d => Return (dict_get d (VStr key))
  | _ => Raise (no_attribute data "get")
  end.

(** [isinstance(e, elasticsearch.exceptions.TransportError)] *)
Definition is_transport_error (e : exn) : bool :=
  match e with
  | TransportError _ _ _ => true
  | _ => false
  end.

(** [getattr(e, "status_code", 500)] *)
Definition status_code_of (e : exn) : pyval :=
  match e with
  | TransportError _ (Some code) _ => code
  | _ => VInt 500
  end.

(** ** The request interceptor *)

Section Interceptor.
Context {W : Type} `{PyBuiltins}.

(** What a call can change: the world the client talks to and the spans
    the tracer has closed so far, oldest first. *)
Record state : Type := mkState {
  world : W;
  spans : list Span
}.

Abbreviation kwargs_t := (list (string * pyval)).

(** A bound [perform_request]: positional arguments, keyword arguments. *)
Definition call_t : Type :=
  list string -> kwargs_t -> state -> outcome pyval * state.

(** The wrapper signature of wrapt: [wrapper(wrapped, instance, args, kwargs)]. *)
Definition wrapper_t : Type :=
  call_t -> Transport -> list string -> kwargs_t -> state -> outcome pyval * state.

(** The attribute [Transport.perform_request]: the function of the client
    library, or a wrapt [FunctionWrapper] around a former value. *)
Inductive Method : Type :=
| Original (f : Transport -> call_t)
| FunctionWrapper (__wrapped__ : Method) (wrapper : wrapper_t).

(** A transport module with its [Transport] class: the method the
    interceptor wraps and the pin attached to the class. *)
Record TransportModule : Type := mkTransportModule {
  perform_request : Method;
  class_pin : option Pin
}.

(** A client library variant: its version, the patch flag (an attribute
    that may be missing) and its own [transport] attribute, if it has one. *)
Record ESModule : Type := mkESModule {
  __version__ : list Z;
  _datadog_patch : option bool;
  transport : option TransportModule
}.

Variable config : Config.

(** [with tracer.trace(name, service=..., span_type=...) as span: body]:
    the span is closed, and handed to the tracer, however the body ends. *)
Definition trace {A} (t : Tracer) (name : string) (svc : option string)
    (ty : string) (body : Span -> state -> outcome A * Span * state)
    (st : state) : outcome A * state :=
  let span := start_span t name svc ty in
  let '(r, span', st') := body span st in
  (r, mkState (world st') (spans st' ++ [finish span'])).

Definition is_es8 (elasticsearch : ESModule) : bool :=
  tuple_ge (__version__ elasticsearch) [8; 0; 0].

(** Lines 118-121: the path and the parameters of the request. *)
Definition request_params (elasticsearch : ESModule) (url : string)
    (kwargs : kwargs_t) : outcome (string * pyval) :=
  if is_es8 elasticsearch then
    '(url', params) ← _parse_elasticsearch8_urlparams url;
    Return (url', VDict params)
  else
    let p := kwargs_get kwargs "params" in
    Return (url, if truthy p then p else VDict []).

(** Lines 133-136: the value of the body tag. *)
Definition serialize_body (elasticsearch : ESModule) (instance : Transport)
    (body : pyval) : outcome pyval :=
  if is_es8 elasticsearch then
    match default_serializer instance with
    | Some s => raw ← dumps s body; py_decode raw
    | None => Raise (AttributeError "serializers")
    end
  else
    match serializer instance with
    | Some s => dumps s body
    | None => Raise (AttributeError "serializer")
    end.

(** [method in ["GET", "POST"]] *)
Definition is_get_or_post (method : string) : bool :=
  String.eqb method "GET" || String.eqb method "POST".

(** Lines 117-143: everything done to the span before delegation. *)
Definition tag_request (elasticsearch : ESModule) (instance : Transport)
    (args : list string) (kwargs : kwargs_t) (span : Span)
  : outcome unit * Span :=
  match args with
  | [method; url] =>
      match request_params elasticsearch url kwargs with
      | Raise e => (Raise e, span)
      | Return (url, params) =>
          match urlencode params with
          | Raise e => (Raise e, span)
          | Return encoded_params =>
              let body := kwargs_get kwargs "body" in
              let span := set_tag span metadata.METHOD (VStr method) in
              let span := set_tag span metadata.URL (VStr url) in
              let span := set_tag span metadata.PARAMS (VStr encoded_params) in
              let span :=
                if trace_query_string config
                then set_tag span http.QUERY_STRING (VStr encoded_params)
                else span in
              let tagged :=
                if is_get_or_post method then
                  match serialize_body elasticsearch instance body with
                  | Raise e => (Raise e, span)
                  | Return text => (Return tt, set_tag span metadata.BODY text)
                  end
                else (Return tt, span) in
              match tagged with
              | (Raise e, span) => (Raise e, span)
              | (Return _, span) =>
                  let span := set_tag span ANALYTICS_SAMPLE_RATE_KEY
                                      (analytics_sample_rate config) in
                  (Return tt, quantize span)
              end
          end
      end
  | [] => (Raise (ValueError "not enough values to unpack (expected 2, got 0)"), span)
  | [_] => (Raise (ValueError "not enough values to unpack (expected 2, got 1)"), span)
  | _ => (Raise (ValueError "too many values to unpack (expected 2)"), span)
  end.

(** Lines 154-160: the two shapes of a result. *)
Definition result_shape (result : pyval) : pyval * pyval :=
  match result with
  | VTuple [status; data] => (status, data)
  | _ => (VNone, result)
  end.

(** Lines 162-168: the value to record as the took metric, if any. *)
Definition took_metric (elasticsearch : ESModule) (data : pyval)
  : outcome (option Z) :=
  took ← py_get data "took";
  if is_es8 elasticsearch then
    match took with
    | VNone => Return None
    | _ => n ← py_int took; Return (Some n)
    end
  else
    if truthy took then n ← py_int took; Return (Some n)
    else Return None.

(** Lines 152-173: the soft-failing extraction and the legacy status. *)
Definition tag_result (elasticsearch : ESModule) (result : pyval)
    (span : Span) : Span :=
  let '(status, data) := result_shape result in
  let span :=
    match took_metric elasticsearch data with
    | Return (Some n) => set_metric span metadata.TOOK n
    | Return None => span
    | Raise _ => span          (* except Exception: pass *)
    end in
  if truthy status then set_tag span http.STATUS_CODE status else span.

(** Lines 111-175: the body of the [with] block. *)
Definition traced_request (elasticsearch : ESModule) (func : call_t)
    (instance : Transport) (args : list string) (kwargs : kwargs_t)
    (span : Span) (st : state) : outcome pyval * Span * state :=
  let span := set_tag span SPAN_MEASURED_KEY VNone in
  if negb (sampled span) then
    let '(r, st') := func args kwargs st in (r, span, st')
  else
    match tag_request elasticsearch instance args kwargs span with
    | (Raise e, span) => (Raise e, span, st)
    | (Return _, span) =>
        match func args kwargs st with
        | (Raise e, st') =>
            if is_transport_error e then
              let span := set_tag span http.STATUS_CODE (status_code_of e) in
              let span := set_error span 1 in
              (Raise e, span, st')
            else (Raise e, span, st')
        | (Return result, st') =>
            (Return result, tag_result elasticsearch result span, st')
        end
    end.

Definition _perform_request (elasticsearch : ESModule) (func : call_t)
    (instance : Transport) (args : list string) (kwargs : kwargs_t)
    (st : state) : outcome pyval * state :=
  match Pin_get_from instance with
  | None => func args kwargs st
  | Some pin =>
      if negb (Pin_enabled pin) then func args kwargs st
      else
        match tracer pin with
        | None => (Raise (AttributeError "trace"), st)
        | Some t =>
            trace t "elasticsearch.query" (ext_service pin config)
                  SpanTypes.ELASTICSEARCH
                  (traced_request elasticsearch func instance args kwargs) st
        end
  end.

Definition _get_perform_request (elasticsearch : ESModule) : wrapper_t :=
  _perform_request elasticsearch.

(** Calling the attribute on an instance. *)
Fixpoint invoke (m : Method) (instance : Transport) : call_t :=
  match m with
  | Original f => f instance
  | FunctionWrapper wrapped wrapper => wrapper (invoke wrapped instance) instance
  end.

(** ** The patch controller *)

(** The modules of the process: the client variants that can be imported,
    by name, and the [elastic_transport] companion that the variants
    without a [transport] attribute share. *)
Record World : Type := mkWorld {
  sys_modules : gmap string ESModule;
  elastic_transport : option TransportModule
}.

Definition module_names : list string :=
  ["elasticsearch"; "elasticsearch1"; "elasticsearch2"; "elasticsearch5";
   "elasticsearch6"; "elasticsearch7"; "elasticsearch8"].

(** [_es_modules()]: the variants that import, in the order of the names. *)
Definition _es_modules (w : World) : list string :=
  filter (fun name => is_Some (sys_modules w !! name)) module_names.

(** [getattr(elasticsearch, "_datadog_patch", False)] *)
Definition getattr_datadog_patch (elasticsearch : ESModule) : bool :=
  match _datadog_patch elasticsearch with
  | Some flag => flag
  | None => false
  end.

(** [setattr(elasticsearch, "_datadog_patch", flag)] on the module [name]. *)
Definition setattr_datadog_patch (name : string) (flag : bool) (w : World)
  : World :=
  mkWorld
    (alter (fun m => mkESModule (__version__ m) (Some flag) (transport m))
           name (sys_modules w))
    (elastic_transport w).

(** The module object [_determine_transport_module] returns: the variant's
    own [transport], or the shared companion. *)
Inductive transport_ref : Type :=
| OwnTransport (name : string)
| ElasticTransport.

Definition _determine_transport_module (name : string) (w : World)
  : outcome transport_ref :=
  match sys_modules w !! name with
  | Some {| transport := Some _ |} => Return (OwnTransport name)
  | _ =>
      match elastic_transport w with
      | Some _ => Return ElasticTransport
      | None => Raise (ImportError "elastic_transport")
      end
  end.

Definition deref (r : transport_ref) (w : World) : option TransportModule :=
  match r with
  | OwnTransport name => m ← sys_modules w !! name; transport m
  | ElasticTransport => elastic_transport w
  end.

Definition assign (r : transport_ref) (t : TransportModule) (w : World)
  : World :=
  match r with
  | OwnTransport name =>
      mkWorld
        (alter (fun m => mkESModule (__version__ m) (_datadog_patch m) (Some t))
               name (sys_modules w))
        (elastic_transport w)
  | ElasticTransport => mkWorld (sys_modules w) (Some t)
  end.

(** [_w(transport_module, "Transport.perform_request", wrapper)] *)
Definition _w (r : transport_ref) (wrapper : wrapper_t) (w : World) : World :=
  match deref r w with
  | Some t =>
      assign r (mkTransportModule (FunctionWrapper (perform_request t) wrapper)
                                  (class_pin t)) w
  | None => w
  end.

(** Modelled from the spec: [Pin()], the association [patch] attaches to
    the transport class: without a tracer, hence disabled. *)
Definition Pin_new : Pin := mkPin None None.

(** [pin.onto(transport_module.Transport)] *)
Definition Pin_onto (pin : Pin) (r : transport_ref) (w : World) : World :=
  match deref r w with
  | Some t => assign r (mkTransportModule (perform_request t) (Some pin)) w
  | None => w
  end.

(** Modelled from the spec: [unwrap] of ddtrace.internal.utils.wrappers,
    which is not part of the sources at hand: it restores the method that
    the wrapper holds in [__wrapped__]; a plain function has none. *)
Definition _u (r : transport_ref) (w : World) : outcome unit * World :=
  match deref r w with
  | Some t =>
      match perform_request t with
      | FunctionWrapper wrapped _ =>
          (Return tt, assign r (mkTransportModule wrapped (class_pin t)) w)
      | Original _ => (Raise (AttributeError "__wrapped__"), w)
      end
  | None => (Return tt, w)
  end.

(** [_patch(elasticsearch)], for the imported module [name]. *)
Definition _patch (name : string) (w : World) : outcome unit * World :=
  match sys_modules w !! name with
  | None => (Return tt, w)
  | Some elasticsearch =>
      if getattr_datadog_patch elasticsearch then (Return tt, w)
      else
        let w := setattr_datadog_patch name true w in
        match _determine_transport_module name w with
        | Raise e => (Raise e, w)
        | Return transport_module =>
            let w := _w transport_module (_get_perform_request elasticsearch) w in
            (Return tt, Pin_onto Pin_new transport_module w)
        end
  end.

(** [_unpatch(elasticsearch)], for the imported module [name]. *)
Definition _unpatch (name : string) (w : World) : outcome unit * World :=
  match sys_modules w !! name with
  | None => (Return tt, w)
  | Some elasticsearch =>
      if getattr_datadog_patch elasticsearch then
        let w := setattr_datadog_patch name false w in
        match _determine_transport_module name w with
        | Raise e => (Raise e, w)
        | Return transport_module => _u transport_module w
        end
      else (Return tt, w)
  end.

(** [for name in names: step(name)], stopping at the first raise. *)
Fixpoint for_modules (step : string -> World -> outcome unit * World)
    (names : list string) (w : World) : outcome unit * World :=
  match names with
  | [] => (Return tt, w)
  | name :: rest =>
      match step name w with
      | (Return _, w') => for_modules step rest w'
      | (Raise e, w') => (Raise e, w')
      end
  end.

Definition patch (w : World) : outcome unit * World :=
  for_modules _patch (_es_modules w) w.

Definition unpatch (w : World) : outcome unit * World :=
  for_modules _unpatch (_es_modules w) w.

(** [n] calls in a row; a raise ends the sequence. *)
Fixpoint repeat_call (f : World -> outcome unit * World) (n : nat) (w : World)
  : outcome unit * World :=
  match n with
  | O => (Return tt, w)
  | S n' =>
      match f w with
      | (Return _, w') => repeat_call f n' w'
      | (Raise e, w') => (Raise e, w')
      end
  end.

End Interceptor.


(** ** Observations on spans and calls *)

(** The values given to the tag [key], in call order. *)
Fixpoint tag_values_of (key : string) (l : list span_op) : list pyval :=
  match l with
  | [] => []
  | SetTag k v :: rest =>
      if String.eqb k key then v :: tag_values_of key rest
      else tag_values_of key rest
  | _ :: rest => tag_values_of key rest
  end.

(** The values given to the metric [key], in call order. *)
Fixpoint metric_values_of (key : string) (l : list span_op) : list Z :=
  match l with
  | [] => []
  | SetMetric k v :: rest =>
      if String.eqb k key then v :: metric_values_of key rest
      else metric_values_of key rest
  | _ :: rest => metric_values_of key rest
  end.

(** The values assigned to [span.error], in order. *)
Fixpoint error_values_of (l : list span_op) : list Z :=
  match l with
  | [] => []
  | SetError v :: rest => v :: error_values_of rest
  | _ :: rest => error_values_of rest
  end.

Definition tag_values (key : string) (span : Span) : list pyval :=
  tag_values_of key (ops span).
Definition metric_values (key : string) (span : Span) : list Z :=
  metric_values_of key (ops span).
Definition error_values (span : Span) : list Z :=
  error_values_of (ops span).

Section Calls.
Context {W : Type}.
Variable config : Config.

(** The span of an intercepted call when tagging starts: opened by the
    tracer of the pin and marked as measured. *)
Definition request_span (pin : Pin) (t : Tracer) : Span :=
  set_tag (start_span t "elasticsearch.query" (ext_service pin config)
                      SpanTypes.ELASTICSEARCH)
          SPAN_MEASURED_KEY VNone.

(** The call is traced and its span is sampled: the instance has a pin,
    the pin has an enabled tracer, and the tracer keeps the span. *)
Definition traced_and_sampled (instance : Transport) (pin : Pin) (t : Tracer)
  : Prop :=
  Pin_get_from instance = Some pin
  /\ tracer pin = Some t
  /\ enabled t = true
  /\ sampled (request_span pin t) = true.

(** The instance has no pin, or a pin that is disabled. *)
Definition untraced (instance : Transport) : Prop :=
  match Pin_get_from instance with
  | None => True
  | Some pin => Pin_enabled pin = false
  end.

(** The operations tagging adds to a span when it completes. *)
Definition tagging_ops (method url' encoded : string) (body_text : option pyval)
  : list span_op :=
  ([SetTag metadata.METHOD (VStr method);
    SetTag metadata.URL (VStr url');
    SetTag metadata.PARAMS (VStr encoded)]
   ++ (if trace_query_string config
       then [SetTag http.QUERY_STRING (VStr encoded)] else [])
   ++ match body_text with Some text => [SetTag metadata.BODY text] | None => [] end
   ++ [SetTag ANALYTICS_SAMPLE_RATE_KEY (analytics_sample_rate config); Quantize])%list.

(** The operations on the span after a successful delegation: the took
    metric when the extraction yields one, the legacy status when the
    result is a pair with a truthy status. *)
Definition result_ops `{PyBuiltins} (elasticsearch : @ESModule W)
    (result : pyval) : list span_op :=
  (match took_metric elasticsearch (snd (result_shape result)) with
   | Return (Some n) => [SetMetric metadata.TOOK n]
   | _ => []
   end
   ++ (if truthy (fst (result_shape result))
       then [SetTag http.STATUS_CODE (fst (result_shape result))] else []))%list.

(** The spans a call has added to those the tracer had closed. *)
Definition spans_since (before after : @state W) (new : list Span) : Prop :=
  spans after = (spans before ++ new)%list.

End Calls.

(** ** Observations on the patch state *)

Section PatchState.
Context {W : Type}.

(** The patch flag of the variant [name], read the way the module reads
    it; a variant that is not installed counts as not patched. *)
Definition patched (w : @World W) (name : string) : bool :=
  match sys_modules w !! name with
  | Some elasticsearch => getattr_datadog_patch elasticsearch
  | None => false
  end.

(** The method of the variant's own transport module, if it has one. *)
Definition own_method (w : @World W) (name : string) : option Method :=
  elasticsearch ← sys_modules w !! name;
  transport_module ← transport elasticsearch;
  Some (perform_request transport_module).

(** The method of the shared companion module, if it is installed. *)
Definition shared_method (w : @World W) : option Method :=
  perform_request <$> elastic_transport w.

(** The variant is installed and resolves to the shared companion. *)
Definition uses_shared (w : @World W) (name : string) : bool :=
  match sys_modules w !! name with
  | Some {| transport := None |} => true
  | _ => false
  end.

(** No variant is marked as patched. *)
Definition unpatched_world (w : @World W) : Prop :=
  Forall (fun name => patched w name = false) module_names.

(** Every variant that resolves to the shared companion finds it. *)
Definition transports_resolve (w : @World W) : Prop :=
  Forall (fun name => uses_shared w name = true -> is_Some (elastic_transport w))
         module_names.

Fixpoint count_where (p : string -> bool) (l : list string) : nat :=
  match l with
  | [] => O
  | x :: rest => (if p x then 1 else 0) + count_where p rest
  end.

(** How many patched variants resolve to the shared companion. *)
Definition shared_depth (w : @World W) : nat :=
  count_where (fun name => patched w name && uses_shared w name) module_names.

(** [m] is [base] under [k] wrappers. *)
Fixpoint wraps (k : nat) (base m : @Method W) : Prop :=
  match k with
  | O => m = base
  | S k' =>
      match m with
      | FunctionWrapper wrapped _ => wraps k' base wrapped
      | Original _ => False
      end
  end.

(** What patching and unpatching keep true of a world [w] reached from an
    unpatched world [w0]: a patched variant with its own transport has its
    method under one wrapper, the shared companion has its method under
    one wrapper per patched variant that resolves to it, and such a
    variant finds the companion. *)
Record patch_invariant (w0 w : @World W) : Prop := mkPatchInvariant {
  inv_uses_shared :
    forall name, In name module_names -> uses_shared w name = uses_shared w0 name;
  inv_own :
    forall name, In name module_names ->
      match own_method w0 name with
      | Some base =>
          exists m, own_method w name = Some m
                    /\ wraps (if patched w name then 1 else 0) base m
      | None => own_method w name = None
      end;
  inv_shared :
    match shared_method w0 with
    | Some base =>
        exists m, shared_method w = Some m /\ wraps (shared_depth w) base m
    | None => shared_method w = None
    end;
  inv_resolve :
    forall name, In name module_names ->
      patched w name = true -> uses_shared w name = true ->
      is_Some (shared_method w);
  inv_installed :
    forall name, is_Some (sys_modules w !! name) <-> is_Some (sys_modules w0 !! name)
}.

End PatchState.

(** ** Sample data

    Concrete collaborators and requests, after the scenarios of the test
    suite, on which the statements below are evaluated. *)

(** A runtime whose [repr] and [int] of strings are never consulted by
    the samples. *)
Definition sample_builtins : PyBuiltins :=
  {| py_repr := fun _ => "<object>";
     int_of_str := fun _ => Raise (ValueError "invalid literal for int() with base 10") |}.

Definition search_url : string :=
  "/ddtrace_index/_search?sort=name%3Adesc&size=100".

(** The world of the samples: the requests the server has received,
    newest first. *)
Definition requests : Type := list string.

Definition sample_config : Config :=
  mkConfig "elasticsearch" None true VNone.

Definition sample_tracer : Tracer := mkTracer true (fun _ _ _ => true).

Definition sample_pin : Pin := mkPin None (Some sample_tracer).

Definition disabled_pin : Pin := mkPin None None.

(** A serializer that passes strings through and refuses the rest: as
    text for the clients before 8.0.0, as bytes from 8.0.0 on. *)
Definition text_serializer : Serializer :=
  mkSerializer (fun body =>
    match body with
    | VStr s => Return (VStr s)
    | _ => Raise (OtherError "SerializationError" [body])
    end).

Definition bytes_serializer : Serializer :=
  mkSerializer (fun body =>
    match body with
    | VStr s => Return (VBytes s)
    | _ => Raise (OtherError "SerializationError" [body])
    end).

Definition traced_transport : Transport :=
  mkTransport (Some sample_pin) (Some text_serializer) (Some bytes_serializer).

Definition unpinned_transport : Transport :=
  mkTransport None (Some text_serializer) (Some bytes_serializer).

Definition disabled_transport : Transport :=
  mkTransport (Some disabled_pin) (Some text_serializer) (Some bytes_serializer).

(** The server answers with a body whose [took] is zero. *)
Definition answer_took_zero : @call_t requests :=
  fun args kwargs st =>
    (Return (VDict [(VStr "took", VInt 0); (VStr "timed_out", VBool false)]),
     mkState (join " " args :: world st) (spans st)).

(** The server answers with a body that is not a mapping. *)
Definition answer_text : @call_t requests :=
  fun args kwargs st =>
    (Return (VStr "green"), mkState (join " " args :: world st) (spans st)).

(** The index does not exist. *)
Definition answer_not_found : @call_t requests :=
  fun args kwargs st =>
    (Raise (TransportError "NotFoundError" (Some (VInt 404))
                           [VStr "index_not_found_exception"]),
     mkState (join " " args :: world st) (spans st)).

Definition no_requests : @state requests := mkState [] [].

(** A variant before 8.0.0 with its own transport module, and two names
    for a variant from 8.0.0 on that share the companion. *)
Definition elasticsearch7 : @ESModule requests :=
  mkESModule [7; 17; 9] None
             (Some (mkTransportModule (Original (fun _ => answer_took_zero)) None)).

Definition elasticsearch8 : @ESModule requests :=
  mkESModule [8; 0; 0] None None.

Definition sample_world : @World requests :=
  mkWorld
    (<["elasticsearch" := elasticsearch8]>
       (<["elasticsearch7" := elasticsearch7]>
          (<["elasticsearch8" := elasticsearch8]> ∅)))
    (Some (mkTransportModule (Original (fun _ => answer_not_found)) None)).

(** The requests of the scenarios. *)
Definition put_index : list string := ["PUT"; "/my_index"].
Definition get_index : list string := ["GET"; "/test-index"].
Definition get_search : list string := ["GET"; search_url].

Definition no_kwargs : list (string * pyval) := [].
Definition text_body : list (string * pyval) :=
  [("body", VStr "{}"); ("params", VNone)].
Definition unserializable_body : list (string * pyval) :=
  [("body", VDict [(VStr "created", VTuple [VInt 2016; VInt 1; VInt 1])])].

(** The intercepted call of the samples, from a state without requests. *)
Definition sample_call (elasticsearch : @ESModule requests) (func : call_t)
    (instance : Transport) (args : list string) (kwargs : list (string * pyval))
  : outcome pyval * state :=
  @_perform_request requests sample_builtins sample_config elasticsearch func
                    instance args kwargs no_requests.

(** The span of the samples when tagging has completed. *)
Definition sample_tagged (elasticsearch : @ESModule requests)
    (args : list string) (kwargs : list (string * pyval)) : Span :=
  snd (@tag_request requests sample_builtins sample_config elasticsearch
                    traced_transport args kwargs
                    (request_span sample_config sample_pin sample_tracer)).

(** The modules of the samples after one [patch()]. *)
Definition patched_sample_world : @World requests :=
  snd (@patch requests sample_builtins sample_config sample_world).

(** ** Further observations *)

(** The name of a parameter: the text before its first [=]. *)
Definition param_key (param : string) : string :=
  hd EmptyString (split "=" param).

(** An item of a mapping from names to texts, as the parser builds them:
    the name is not empty and holds neither [=] nor [&]. *)
Definition parsed_item (item : pyval * pyval) : Prop :=
  exists k v, item = (VStr k, VStr v)
              /\ nonempty_string k = true
              /\ count_char "=" k = O
              /\ count_char "&" k = O.

(** An item that survives URL-encoding and parsing unchanged: the name is
    a non-empty text of unreserved characters (the parser does not decode
    names) and the value is a text without spaces (a space is encoded as
    [+], which decoding leaves alone). *)
Definition encodable_item (item : pyval * pyval) : Prop :=
  exists k v, item = (VStr k, VStr v)
              /\ nonempty_string k = true
              /\ string_forall is_unreserved k = true
              /\ count_char " " v = O.

(** What [quote_plus] writes for one character. *)
Definition quote_char (c : ascii) : string :=
  if is_unreserved c then String c EmptyString
  else if Ascii.eqb c " " then "+"
  else String "%" (String (hex_digit (code c / 16))
                          (String (hex_digit (code c mod 16)) EmptyString)).

(** The parameter [urlencode] writes for an item. *)
Definition encoded_item `{PyBuiltins} (item : pyval * pyval) : string :=
  quote_item (fst item) ++ "=" ++ quote_item (snd item).

(** Two states of one span: the name, the service, the type and the
    sampling decision agree. *)
Definition same_span (a b : Span) : Prop :=
  span_name a = span_name b /\ span_service a = span_service b
  /\ span_type a = span_type b /\ sampled a = sampled b.

(** Is the operation the call of [quantize]? *)
Definition is_quantize (op : span_op) : bool :=
  match op with Quantize => true | _ => false end.

Section PatchViews.
Context {W : Type} `{PyBuiltins}.
Variable config : Config.

(** The transport module [_determine_transport_module] resolves the
    variant [name] to: its own, or else the shared companion. *)
Definition resolved_transport (w : @World W) (name : string)
  : option TransportModule :=
  match sys_modules w !! name with
  | Some elasticsearch =>
      match transport elasticsearch with
      | Some transport_module => Some transport_module
      | None => elastic_transport w
      end
  | None => None
  end.

(** [base] under the interceptors of the given variants, the first of
    them outermost. *)
Definition wrap_with (interceptors : list (@ESModule W)) (base : Method)
  : Method :=
  fold_right (fun elasticsearch m =>
                FunctionWrapper m (_get_perform_request config elasticsearch))
             base interceptors.

(** The installed variants among [names] that resolve to the shared
    companion, in the order of [names]. *)
Fixpoint shared_users (w : @World W) (names : list string)
  : list (@ESModule W) :=
  match names with
  | [] => []
  | name :: rest =>
      match sys_modules w !! name with
      | Some {| __version__ := v; _datadog_patch := f; transport := None |} =>
          mkESModule v f None :: shared_users w rest
      | _ => shared_users w rest
      end
  end.

End PatchViews.

Section Frames.
Context {W : Type}.

(** A module after a step of the patch controller: the version is the
    same, and it has a [transport] attribute exactly if it had one. *)
Definition module_kept (before after : @ESModule W) : Prop :=
  __version__ after = __version__ before
  /\ (transport after = None <-> transport before = None).

(** From [w] to [w'] only the variants in [names] were written to, no
    module appeared or disappeared, and every module was kept. *)
Definition touches_only (names : list string) (w w' : @World W) : Prop :=
  (forall n, ~ In n names -> sys_modules w' !! n = sys_modules w !! n)
  /\ (forall n,
        match sys_modules w !! n, sys_modules w' !! n with
        | Some before, Some after => module_kept before after
        | None, None => True
        | _, _ => False
        end).

End Frames.

(** ** Further sample data *)

(** A tracer that drops every span, and a transport pinned to it. *)
Definition dropping_tracer : Tracer := mkTracer true (fun _ _ _ => false).
Definition dropping_pin : Pin := mkPin None (Some dropping_tracer).
Definition unsampled_transport : Transport :=
  mkTransport (Some dropping_pin) (Some text_serializer) (Some bytes_serializer).

(** A transport of a client from 8.0.0 on whose default serializer gives
    text instead of bytes. *)
Definition text_only_transport : Transport :=
  mkTransport (Some sample_pin) (Some text_serializer) (Some text_serializer).

(** The original method fails with an error that is no transport error. *)
Definition answer_broken : @call_t requests :=
  fun args kwargs st =>
    (Raise (OtherError "RuntimeError" [VStr "connection pool is closed"]),
     mkState (join " " args :: world st) (spans st)).

(** The answer of a client before 2.4: the status and the body. *)
Definition answer_legacy_pair : @call_t requests :=
  fun args kwargs st =>
    (Return (VTuple [VInt 200; VDict [(VStr "took", VInt 3)]]),
     mkState (join " " args :: world st) (spans st)).

(** Only the variant of 8.0.0 on is installed, and the companion module
    cannot be imported. *)
Definition world_without_companion : @World requests :=
  mkWorld (<["elasticsearch8" := elasticsearch8]> ∅) None.

(** ** Facts about the parser *)

Lemma split_length sep s : length (split sep s) = S (count_char sep s).
Proof.
  induction s as [|c rest IH]; simpl; [reflexivity|].
  destruct (Ascii.eqb c sep); simpl.
  - now rewrite IH.
  - destruct (split sep rest) as [|w ws]; simpl in *; [discriminate|exact IH].
Qed.

Lemma split_no_sep sep s : count_char sep s = O -> split sep s = [s].
Proof.
  induction s as [|c rest IH]; simpl; [reflexivity|].
  destruct (Ascii.eqb c sep); simpl; [discriminate|].
  intros Hc. now rewrite (IH Hc).
Qed.

Lemma for_each_raises {A S} (body : S -> A -> outcome S) xs :
  (exists x, In x xs /\ forall acc, is_raise (body acc x)) ->
  forall acc, is_raise (for_each body xs acc).
Proof.
  induction xs as [|y ys IH]; intros (x & Hin & Hx) acc; simpl in *; [contradiction|].
  destruct Hin as [->|Hin].
  - specialize (Hx acc). destruct (body acc x); simpl in *; [contradiction|exact I].
  - unfold obind. destruct (body acc y) as [acc'|e]; simpl; [|exact I].
    apply IH. eauto.
Qed.

Lemma parse_param_many_eq acc param :
  (2 <= count_char "=" param)%nat ->
  parse_param acc param = Raise (ValueError "too many values to unpack (expected 2)").
Proof.
  intros Hc. unfold parse_param.
  pose proof (split_length "=" param) as Hl.
  destruct (split "=" param) as [|a [|b [|c l]]]; simpl in *; try lia.
  reflexivity.
Qed.

Lemma parse_param_bare acc param :
  count_char "=" param = O ->
  parse_param acc param = Raise (TypeError "unhashable type: 'list'").
Proof.
  intros Hc. unfold parse_param. rewrite (split_no_sep _ _ Hc). reflexivity.
Qed.

Lemma In_split_nonempty sep s x :
  In x (split sep s) -> nonempty_string x = true -> nonempty_string s = true.
Proof.
  destruct s; simpl; [|reflexivity].
  intros [<-|[]]. auto.
Qed.

Lemma parse_param_pair acc param :
  count_char "=" param = 1%nat -> exists acc', parse_param acc param = Return acc'.
Proof.
  intros Hc. unfold parse_param.
  pose proof (split_length "=" param) as Hl. rewrite Hc in Hl.
  destruct (split "=" param) as [|k [|v [|c l]]]; simpl in *; try discriminate.
  destruct (nonempty_string k); eauto.
Qed.

Lemma for_each_app {A S} (body : S -> A -> outcome S) xs ys acc :
  for_each body (xs ++ ys) acc = obind (for_each body xs acc) (for_each body ys).
Proof.
  revert acc. induction xs as [|x xs IH]; intros acc; simpl; [reflexivity|].
  destruct (body acc x); simpl; auto.
Qed.

Lemma for_each_pairs pre acc :
  Forall (fun p => count_char "=" p = 1%nat) pre ->
  exists acc', for_each parse_param pre acc = Return acc'.
Proof.
  intros Hpre. revert acc. induction Hpre as [|p pre Hp _ IH]; intros acc; simpl; [eauto|].
  destruct (parse_param_pair acc p Hp) as [acc' ->]. simpl. apply IH.
Qed.

Lemma count_char_nonempty c s : (1 <= count_char c s)%nat -> nonempty_string s = true.
Proof. destruct s; simpl; [lia|reflexivity]. Qed.

(** A bare parameter anywhere in a non-empty query string makes the
    parser raise: its key is the list [kv], which cannot be hashed. *)
Lemma parse_urlparams_bare_parameter_raises (url : string) :
  nonempty_string (query (urlparse url)) = true ->
  (exists param, In param (split "&" (query (urlparse url)))
                 /\ count_char "=" param = O) ->
  is_raise (_parse_elasticsearch8_urlparams url).
Proof.
  intros Hq (param & Hin & Hc). unfold _parse_elasticsearch8_urlparams.
  rewrite Hq.
  assert (Hr : is_raise (for_each parse_param (split "&" (query (urlparse url))) [])).
  { apply for_each_raises. exists param. split; [exact Hin|].
    intros acc. now rewrite parse_param_bare. }
  destruct (for_each parse_param _ _); simpl in *; [contradiction|exact I].
Qed.

(** C6 (evaluated on the code): for the request target
    [/my_index/_search?pretty], whose query string is the bare parameter
    [pretty], the 8.x parser does not return a mapping from [pretty] to the
    empty string: it raises [TypeError], because the key it stores is the
    list [["pretty"]]. *)
Theorem parse_urlparams_bare_pretty :
  _parse_elasticsearch8_urlparams "/my_index/_search?pretty"
  = Raise (TypeError "unhashable type: 'list'").
Proof. reflexivity. Qed.

(** C10: for every URL whose query string has a parameter with two or more
    [=] characters, the 8.x parser raises instead of returning a mapping;
    when every parameter before it has exactly one [=], the exception is
    the [ValueError] of the two-element destructuring. *)
Theorem parse_urlparams_raises_on_repeated_equals (url param : string) :
  In param (split "&" (query (urlparse url))) ->
  (2 <= count_char "=" param)%nat ->
  is_raise (_parse_elasticsearch8_urlparams url)
  /\ (forall pre post,
        split "&" (query (urlparse url)) = (pre ++ param :: post)%list ->
        Forall (fun p => count_char "=" p = 1%nat) pre ->
        _parse_elasticsearch8_urlparams url
        = Raise (ValueError "too many values to unpack (expected 2)")).
Proof.
  intros Hin Hc.
  assert (Hq : nonempty_string (query (urlparse url)) = true).
  { apply (In_split_nonempty "&" _ param Hin), (count_char_nonempty "="). lia. }
  unfold _parse_elasticsearch8_urlparams. rewrite Hq. split.
  - assert (Hr : is_raise (for_each parse_param (split "&" (query (urlparse url))) [])).
    { apply for_each_raises. exists param. split; [exact Hin|].
      intros acc. now rewrite parse_param_many_eq. }
    destruct (for_each parse_param _ _); simpl in *; [contradiction|exact I].
  - intros pre post Hsplit Hpre. rewrite Hsplit, for_each_app.
    destruct (for_each_pairs pre [] Hpre) as [acc' ->]. simpl.
    now rewrite parse_param_many_eq.
Qed.

Lemma parse_urlparams_raises_on_repeated_equals_witness :
  In "a=b=c" (split "&" (query (urlparse "/my_index/_search?size=1&a=b=c")))
  /\ (2 <= count_char "=" "a=b=c")%nat
  /\ is_raise (_parse_elasticsearch8_urlparams "/my_index/_search?size=1&a=b=c")
  /\ _parse_elasticsearch8_urlparams "/my_index/_search?size=1&a=b=c"
     = Raise (ValueError "too many values to unpack (expected 2)").
Proof.
  assert (Hin : In "a=b=c" (split "&" (query (urlparse "/my_index/_search?size=1&a=b=c")))).
  { simpl. right. left. reflexivity. }
  assert (Hc : (2 <= count_char "=" "a=b=c")%nat) by (simpl; lia).
  destruct (parse_urlparams_raises_on_repeated_equals
              "/my_index/_search?size=1&a=b=c" "a=b=c" Hin Hc) as [Hr Hv].
  refine (conj Hin (conj Hc (conj Hr (Hv ["size=1"] [] eq_refl _)))).
  constructor; [reflexivity|constructor].
Defined.

Section ParserRoundTrip.
Context `{PyBuiltins}.

(** C5: for every URL whose query string is [sort=name%3Adesc&size=100],
    the 8.x parser yields the mapping from [sort] to [name:desc] and from
    [size] to [100]; URL-encoding that mapping gives back the query
    string, and URL-encoding it in any other order of its items gives a
    query string with the same pairs. *)
Theorem parse_urlparams_round_trip (url : string) :
  query (urlparse url) = "sort=name%3Adesc&size=100" ->
  let mapping := [(VStr "sort", VStr "name:desc"); (VStr "size", VStr "100")] in
  _parse_elasticsearch8_urlparams url = Return (path (urlparse url), mapping)
  /\ urlencode (VDict mapping) = Return (query (urlparse url))
  /\ (forall reordered,
        Permutation mapping reordered ->
        exists encoded,
          urlencode (VDict reordered) = Return encoded
          /\ Permutation (split "&" encoded) (split "&" (query (urlparse url)))).
Proof.
  intros Hq mapping. unfold _parse_elasticsearch8_urlparams.
  rewrite Hq. split; [reflexivity|]. split; [reflexivity|].
  intros reordered Hperm.
  destruct (Permutation_length_2_inv Hperm) as [-> | ->].
  - exists "sort=name%3Adesc&size=100". split; reflexivity.
  - exists "size=100&sort=name%3Adesc". split; [reflexivity|]. apply perm_swap.
Qed.

End ParserRoundTrip.

Lemma parse_urlparams_round_trip_witness :
  query (urlparse search_url) = "sort=name%3Adesc&size=100"
  /\ _parse_elasticsearch8_urlparams search_url
     = Return ("/ddtrace_index/_search",
               [(VStr "sort", VStr "name:desc"); (VStr "size", VStr "100")])
  /\ @urlencode sample_builtins
       (VDict [(VStr "sort", VStr "name:desc"); (VStr "size", VStr "100")])
     = Return "sort=name%3Adesc&size=100".
Proof.
  destruct (@parse_urlparams_round_trip sample_builtins search_url eq_refl)
    as (Hp & He & _).
  exact (conj eq_refl (conj Hp He)).
Defined.

(** ** Facts about the interceptor *)

Lemma tag_values_of_app key l1 l2 :
  tag_values_of key (l1 ++ l2) = (tag_values_of key l1 ++ tag_values_of key l2)%list.
Proof.
  induction l1 as [|[k v| | |] l1 IH]; simpl; auto.
  destruct (String.eqb k key); simpl; now rewrite IH.
Qed.

Lemma metric_values_of_app key l1 l2 :
  metric_values_of key (l1 ++ l2)
  = (metric_values_of key l1 ++ metric_values_of key l2)%list.
Proof.
  induction l1 as [|[|k v| |] l1 IH]; simpl; auto.
  destruct (String.eqb k key); simpl; now rewrite IH.
Qed.

Lemma error_values_of_app l1 l2 :
  error_values_of (l1 ++ l2) = (error_values_of l1 ++ error_values_of l2)%list.
Proof.
  induction l1 as [|[| |v|] l1 IH]; simpl; auto. now rewrite IH.
Qed.

Section InterceptorFacts.
Context {W : Type} `{PyBuiltins}.
Variable config : Config.

Lemma tag_request_completes (elasticsearch : @ESModule W) instance args kwargs span0 span :
  tag_request config elasticsearch instance args kwargs span0 = (Return tt, span) ->
  exists method url url' params encoded body_text,
    args = [method; url]
    /\ request_params elasticsearch url kwargs = Return (url', params)
    /\ urlencode params = Return encoded
    /\ (if is_get_or_post method
        then exists text,
            serialize_body elasticsearch instance (kwargs_get kwargs "body")
            = Return text /\ body_text = Some text
        else body_text = None)
    /\ ops span = (ops span0 ++ tagging_ops config method url' encoded body_text)%list.
Proof.
  unfold tag_request, tagging_ops.
  destruct args as [|method [|url [|x args]]]; try discriminate.
  destruct (request_params elasticsearch url kwargs) as [[url' params]|e] eqn:Hp;
    try discriminate.
  destruct (urlencode params) as [encoded|e] eqn:He; try discriminate.
  destruct (is_get_or_post method) eqn:Hm.
  - destruct (serialize_body elasticsearch instance (kwargs_get kwargs "body"))
      as [text|e] eqn:Hs; try discriminate.
    intros [= <-]. exists method, url, url', params, encoded, (Some text).
    split; [reflexivity|]. split; [exact Hp|]. split; [exact He|].
    rewrite Hm. split; [eauto|].
    destruct (trace_query_string config); simpl; rewrite <- ?app_assoc; reflexivity.
  - intros [= <-]. exists method, url, url', params, encoded, None.
    split; [reflexivity|]. split; [exact Hp|]. split; [exact He|].
    rewrite Hm. split; [reflexivity|].
    destruct (trace_query_string config); simpl; rewrite <- ?app_assoc; reflexivity.
Qed.


Lemma request_span_ops pin t :
  ops (request_span config pin t) = [SetTag SPAN_MEASURED_KEY VNone].
Proof. reflexivity. Qed.

(** The three ways a traced, sampled call ends. *)
Lemma perform_request_traced (elasticsearch : @ESModule W) func instance pin t
    args kwargs st :
  traced_and_sampled config instance pin t ->
  _perform_request config elasticsearch func instance args kwargs st
  = match tag_request config elasticsearch instance args kwargs
                      (request_span config pin t) with
    | (Raise e, span) => (Raise e, mkState (world st) (spans st ++ [finish span]))
    | (Return _, span) =>
        match func args kwargs st with
        | (Raise e, st') =>
            (Raise e,
             mkState (world st')
               (spans st' ++
                [finish (if is_transport_error e
                         then set_error (set_tag span http.STATUS_CODE
                                                 (status_code_of e)) 1
                         else span)]))
        | (Return result, st') =>
            (Return result,
             mkState (world st')
               (spans st' ++ [finish (tag_result elasticsearch result span)]))
        end
    end.
Proof.
  intros (Hpin & Ht & Hen & Hs).
  unfold _perform_request, Pin_enabled. rewrite Hpin, Ht, Hen. simpl.
  unfold trace, traced_request. fold (request_span config pin t).
  rewrite Hs. simpl.
  destruct (tag_request config elasticsearch instance args kwargs
              (request_span config pin t)) as [[[]|e] span]; [|reflexivity].
  destruct (func args kwargs st) as [[result|e] st']; [reflexivity|].
  destruct (is_transport_error e); reflexivity.
Qed.

(** C1: on an instance without a pin, or with a disabled pin, the wrapped
    [_perform_request] is the original method: same result, same state
    afterwards, hence no span and no side effect of its own. *)
Theorem perform_request_passthrough (elasticsearch : @ESModule W) func instance
    args kwargs st :
  untraced instance ->
  _perform_request config elasticsearch func instance args kwargs st
  = func args kwargs st.
Proof.
  unfold untraced, _perform_request.
  destruct (Pin_get_from instance) as [pin|]; [|reflexivity].
  intros ->. reflexivity.
Qed.

(** Calling a method that [_patch] has wrapped, on an instance that is
    not traced, is calling the method it wraps. *)
Lemma invoke_wrapped_untraced (elasticsearch : @ESModule W) m instance args kwargs st :
  untraced instance ->
  invoke (FunctionWrapper m (_get_perform_request config elasticsearch))
         instance args kwargs st
  = invoke m instance args kwargs st.
Proof.
  unfold untraced. cbn [invoke]. unfold _get_perform_request, _perform_request.
  destruct (Pin_get_from instance) as [pin|]; [|reflexivity].
  intros ->. reflexivity.
Qed.

(** C2: when a traced, sampled call reaches delegation and the original
    call raises a transport error, the very same exception is raised to
    the caller, and the span, closed once, receives after the tagging
    exactly a status-code tag (the error's [status_code] when it has one,
    500 otherwise) and the error flag 1. *)
Theorem transport_error_tagged_and_reraised (elasticsearch : @ESModule W) func
    instance pin t args kwargs st span cls status info st' :
  traced_and_sampled config instance pin t ->
  tag_request config elasticsearch instance args kwargs (request_span config pin t)
  = (Return tt, span) ->
  func args kwargs st = (Raise (TransportError cls status info), st') ->
  let code := match status with Some c => c | None => VInt 500 end in
  exists final,
    _perform_request config elasticsearch func instance args kwargs st
    = (Raise (TransportError cls status info),
       mkState (world st') (spans st' ++ [final]))
    /\ finished final = true
    /\ ops final = (ops span ++ [SetTag http.STATUS_CODE code; SetError 1])%list
    /\ error_values final = [1]
    /\ tag_values http.STATUS_CODE final = [code].
Proof.
  intros Htr Htag Hf code.
  assert (Hcode : status_code_of (TransportError cls status info) = code)
    by (destruct status; reflexivity).
  rewrite (perform_request_traced _ _ _ _ _ _ _ _ Htr), Htag, Hf.
  cbn [is_transport_error]. rewrite Hcode.
  eexists. split; [reflexivity|]. split; [reflexivity|].
  cbn [finish set_error set_tag record_op ops]. rewrite <- app_assoc.
  split; [reflexivity|].
  destruct (tag_request_completes _ _ _ _ _ _ Htag)
    as (method & url & url' & params & encoded & body_text & _ & _ & _ & _ & Hops).
  unfold error_values, tag_values. cbn [finish set_error set_tag record_op ops].
  rewrite <- app_assoc, Hops, request_span_ops. unfold tagging_ops.
  rewrite !error_values_of_app, !tag_values_of_app.
  destruct (trace_query_string config), body_text; split; reflexivity.
Qed.

Lemma tag_result_ops (elasticsearch : @ESModule W) result span :
  ops (tag_result elasticsearch result span)
  = (ops span ++ result_ops elasticsearch result)%list.
Proof.
  unfold tag_result, result_ops.
  destruct (result_shape result) as [status data]. cbn [fst snd].
  destruct (took_metric elasticsearch data) as [[n|]|e];
    destruct (truthy status); cbn [set_tag set_metric record_op ops];
    rewrite <- ?app_assoc, ?app_nil_r; reflexivity.
Qed.

Lemma tag_result_finished (elasticsearch : @ESModule W) result span :
  finished (finish (tag_result elasticsearch result span)) = true.
Proof. reflexivity. Qed.

(** Tagging sets no metric, no error flag and no status code. *)
Lemma tagged_span_clean (elasticsearch : @ESModule W) instance pin t args kwargs span :
  tag_request config elasticsearch instance args kwargs (request_span config pin t)
  = (Return tt, span) ->
  metric_values_of metadata.TOOK (ops span) = []
  /\ error_values_of (ops span) = []
  /\ tag_values_of http.STATUS_CODE (ops span) = [].
Proof.
  intros Htag.
  destruct (tag_request_completes _ _ _ _ _ _ Htag)
    as (method & url & url' & params & encoded & body_text & _ & _ & _ & _ & ->).
  rewrite request_span_ops. unfold tagging_ops.
  rewrite !metric_values_of_app, !error_values_of_app, !tag_values_of_app.
  destruct (trace_query_string config), body_text; repeat split; reflexivity.
Qed.

(** C7: when the original call of a traced, sampled request returns, the
    wrapped call returns that very result whatever its shape, and when the
    took extraction raises (for instance on a body without [get]) the
    span, closed once, has no took metric. *)
Theorem extraction_errors_are_swallowed (elasticsearch : @ESModule W) func
    instance pin t args kwargs st span result st' :
  traced_and_sampled config instance pin t ->
  tag_request config elasticsearch instance args kwargs (request_span config pin t)
  = (Return tt, span) ->
  func args kwargs st = (Return result, st') ->
  exists final,
    _perform_request config elasticsearch func instance args kwargs st
    = (Return result, mkState (world st') (spans st' ++ [final]))
    /\ finished final = true
    /\ (is_raise (took_metric elasticsearch (snd (result_shape result))) ->
        metric_values metadata.TOOK final = []).
Proof.
  intros Htr Htag Hf.
  rewrite (perform_request_traced _ _ _ _ _ _ _ _ Htr), Htag, Hf.
  eexists. split; [reflexivity|]. split; [reflexivity|].
  intros Hraise. unfold metric_values. cbn [finish ops].
  rewrite tag_result_ops, metric_values_of_app.
  destruct (tagged_span_clean _ _ _ _ _ _ _ Htag) as (-> & _ & _).
  unfold result_ops.
  destruct (took_metric elasticsearch (snd (result_shape result))); [contradiction|].
  destruct (truthy (fst (result_shape result))); reflexivity.
Qed.

(** C3: for a traced, sampled call that returns a body with a [took] field
    that [int] accepts: a client of version 8.0.0 or later records the took
    metric, as that integer, whenever the field is present, zero included;
    an earlier client records it only when the field is truthy, so a took
    of zero records nothing. *)
Theorem took_metric_by_version (elasticsearch : @ESModule W) func instance pin t
    args kwargs st span result st' d n :
  traced_and_sampled config instance pin t ->
  tag_request config elasticsearch instance args kwargs (request_span config pin t)
  = (Return tt, span) ->
  func args kwargs st = (Return result, st') ->
  snd (result_shape result) = VDict d ->
  py_int (dict_get d (VStr "took")) = Return n ->
  let took := dict_get d (VStr "took") in
  exists final,
    _perform_request config elasticsearch func instance args kwargs st
    = (Return result, mkState (world st') (spans st' ++ [final]))
    /\ (is_es8 elasticsearch = true -> metric_values metadata.TOOK final = [n])
    /\ (is_es8 elasticsearch = false ->
        metric_values metadata.TOOK final = if truthy took then [n] else [])
    /\ (took = VInt 0 ->
        metric_values metadata.TOOK final
        = if is_es8 elasticsearch then [0] else []).
Proof.
  intros Htr Htag Hf Hd Hint took.
  rewrite (perform_request_traced _ _ _ _ _ _ _ _ Htr), Htag, Hf.
  eexists. split; [reflexivity|].
  unfold metric_values. cbn [finish ops].
  rewrite tag_result_ops, metric_values_of_app.
  destruct (tagged_span_clean _ _ _ _ _ _ _ Htag) as (-> & _ & _).
  unfold result_ops. rewrite Hd, metric_values_of_app.
  assert (Hstatus : forall s : pyval,
             metric_values_of metadata.TOOK
               (if truthy s then [SetTag http.STATUS_CODE s] else []) = [])
    by (intros s; destruct (truthy s); reflexivity).
  rewrite Hstatus. unfold took_metric, py_get. cbn [mbind outcome_bind obind].
  fold took. fold took in Hint.
  assert (Hnone : took <> VNone).
  { intros E. rewrite E in Hint. discriminate. }
  split; [|split].
  - intros ->. destruct took; try contradiction; rewrite Hint; reflexivity.
  - intros ->. destruct (truthy took); [rewrite Hint|]; reflexivity.
  - intros E. rewrite E in *. injection Hint as <-.
    destruct (is_es8 elasticsearch); reflexivity.
Qed.

(** C9: when the body serialization of a traced, sampled GET or POST call
    raises, that exception reaches the caller; the original method is not
    called (the world is as before, whatever [func] is), and the span is
    still closed, once, without a body tag. *)
Theorem serialization_error_propagates (elasticsearch : @ESModule W) func
    instance pin t method url kwargs st url' params encoded e :
  traced_and_sampled config instance pin t ->
  is_get_or_post method = true ->
  request_params elasticsearch url kwargs = Return (url', params) ->
  urlencode params = Return encoded ->
  serialize_body elasticsearch instance (kwargs_get kwargs "body") = Raise e ->
  exists final,
    _perform_request config elasticsearch func instance [method; url] kwargs st
    = (Raise e, mkState (world st) (spans st ++ [final]))
    /\ finished final = true
    /\ tag_values metadata.BODY final = []
    /\ tag_values metadata.METHOD final = [VStr method].
Proof.
  intros Htr Hm Hp He Hs.
  rewrite (perform_request_traced _ _ _ _ _ _ _ _ Htr).
  unfold tag_request. rewrite Hp, He, Hm, Hs.
  eexists. split; [reflexivity|]. split; [reflexivity|].
  unfold tag_values. cbn [finish ops].
  destruct (trace_query_string config); split; reflexivity.
Qed.

(** C8: for a traced, sampled call whose tagging completes, the span,
    closed once, carries the method and url tags, and a body tag exactly
    when the method is GET or POST: then its value is what the client's
    serializer gives for the body (from 8.0.0 on the bytes of
    [default_serializer.dumps] decoded as UTF-8, before that the result of
    [serializer.dumps]); for any other method, PUT for instance, there is
    no body tag. *)
Theorem body_tag_iff_get_or_post (elasticsearch : @ESModule W) func instance
    pin t method url kwargs st span :
  traced_and_sampled config instance pin t ->
  tag_request config elasticsearch instance [method; url] kwargs
              (request_span config pin t) = (Return tt, span) ->
  let body := kwargs_get kwargs "body" in
  exists final r st' url' params,
    _perform_request config elasticsearch func instance [method; url] kwargs st
    = (r, mkState (world st') (spans st' ++ [final]))
    /\ func [method; url] kwargs st = (r, st')
    /\ request_params elasticsearch url kwargs = Return (url', params)
    /\ tag_values metadata.METHOD final = [VStr method]
    /\ tag_values metadata.URL final = [VStr url']
    /\ (tag_values metadata.BODY final <> [] <-> is_get_or_post method = true)
    /\ (is_get_or_post method = true ->
        exists text,
          tag_values metadata.BODY final = [text]
          /\ serialize_body elasticsearch instance body = Return text
          /\ (is_es8 elasticsearch = true ->
              exists s raw,
                default_serializer instance = Some s
                /\ dumps s body = Return (VBytes raw)
                /\ decode_utf8 raw = Return raw /\ text = VStr raw)
          /\ (is_es8 elasticsearch = false ->
              exists s, serializer instance = Some s
                        /\ dumps s body = Return text)).
Proof.
  intros Htr Htag body. subst body.
  destruct (tag_request_completes _ _ _ _ _ _ Htag)
    as (m & u & url' & params & encoded & body_text & [= <- <-] & Hp & He & Hb & Hops).
  rewrite (perform_request_traced _ _ _ _ _ _ _ _ Htr), Htag.
  assert (Hfinal : exists final r st' tail,
             match func [method; url] kwargs st with
             | (Raise e, st') =>
                 (Raise e,
                  mkState (world st')
                    (spans st' ++
                     [finish (if is_transport_error e
                              then set_error (set_tag span http.STATUS_CODE
                                                      (status_code_of e)) 1
                              else span)]))
             | (Return result, st') =>
                 (Return result,
                  mkState (world st')
                    (spans st' ++ [finish (tag_result elasticsearch result span)]))
             end = (r, mkState (world st') (spans st' ++ [final]))
             /\ func [method; url] kwargs st = (r, st')
             /\ ops final = (ops span ++ tail)%list
             /\ forall key, key <> http.STATUS_CODE -> tag_values_of key tail = []).
  { destruct (func [method; url] kwargs st) as [[result|e] st'].
    - exists (finish (tag_result elasticsearch result span)), (Return result), st',
        (result_ops elasticsearch result).
      split; [reflexivity|]. split; [reflexivity|].
      split; [apply tag_result_ops|].
      intros key Hkey. unfold result_ops. rewrite tag_values_of_app.
      apply String.eqb_neq in Hkey. rewrite String.eqb_sym in Hkey.
      unfold http.STATUS_CODE in *.
      destruct (took_metric _ _) as [[n|]|]; destruct (truthy _);
        cbn -[String.eqb]; rewrite ?Hkey; reflexivity.
    - destruct (is_transport_error e).
      + exists (finish (set_error (set_tag span http.STATUS_CODE (status_code_of e)) 1)),
          (Raise e), st', [SetTag http.STATUS_CODE (status_code_of e); SetError 1].
        split; [reflexivity|]. split; [reflexivity|].
        split; [cbn [finish set_error set_tag record_op ops];
                now rewrite <- app_assoc|].
        intros key Hkey. apply String.eqb_neq in Hkey. rewrite String.eqb_sym in Hkey.
        unfold http.STATUS_CODE in *. cbn -[String.eqb]. now rewrite Hkey.
      + exists (finish span), (Raise e), st', [].
        split; [reflexivity|]. split; [reflexivity|].
        split; [cbn [finish ops]; now rewrite app_nil_r|]. reflexivity. }
  destruct Hfinal as (final & r & st' & tail & Hrun & Hf & Hfinal & Htail).
  exists final, r, st', url', params.
  split; [exact Hrun|]. split; [exact Hf|]. split; [exact Hp|].
  unfold tag_values. rewrite Hfinal, Hops, request_span_ops. unfold tagging_ops.
  rewrite !tag_values_of_app, !Htail by discriminate.
  destruct (is_get_or_post method) eqn:Hm.
  - destruct Hb as (text & Hs & ->).
    split; [destruct (trace_query_string config); reflexivity|].
    split; [destruct (trace_query_string config); reflexivity|].
    split; [destruct (trace_query_string config);
            (split; [intros _; reflexivity|intros _; discriminate])|].
    intros _. exists text.
    split; [destruct (trace_query_string config); reflexivity|].
    split; [exact Hs|].
    unfold serialize_body in Hs. split.
    + intros E8. rewrite E8 in Hs.
      destruct (default_serializer instance) as [s|]; [|discriminate].
      exists s. unfold mbind, outcome_bind, obind in Hs.
      destruct (dumps s (kwargs_get kwargs "body")) as [[|?|?|?|raw|?|?|?]|] eqn:Hd; try discriminate.
      exists raw. unfold py_decode, decode_utf8, mbind, outcome_bind, obind in *.
      destruct (utf8_valid (bytes_of raw)); [|discriminate].
      injection Hs as <-. repeat split; reflexivity.
    + intros E8. rewrite E8 in Hs.
      destruct (serializer instance) as [s|]; [|discriminate].
      exists s. split; [reflexivity|exact Hs].
  - subst body_text.
    split; [destruct (trace_query_string config); reflexivity|].
    split; [destruct (trace_query_string config); reflexivity|].
    split; [|discriminate].
    destruct (trace_query_string config);
      (split; [intros E; now contradiction E|discriminate]).
Qed.

End InterceptorFacts.

(** ** Facts about the patch controller *)

Section PatchFacts.
Context {W : Type} `{PyBuiltins}.
Variable config : Config.

Implicit Types (w : @World W) (name n : string).

Lemma setattr_lookup name flag w n :
  sys_modules (setattr_datadog_patch name flag w) !! n
  = if decide (name = n)
    then (fun m => mkESModule (__version__ m) (Some flag) (transport m))
           <$> sys_modules w !! n
    else sys_modules w !! n.
Proof.
  unfold setattr_datadog_patch. cbn [sys_modules].
  rewrite lookup_alter. destruct (decide (name = n)) as [->|]; reflexivity.
Qed.

Lemma setattr_elastic name flag w :
  elastic_transport (setattr_datadog_patch name flag w) = elastic_transport w.
Proof. reflexivity. Qed.

Lemma assign_own_lookup name t w n :
  sys_modules (assign (OwnTransport name) t w) !! n
  = if decide (name = n)
    then (fun m => mkESModule (__version__ m) (_datadog_patch m) (Some t))
           <$> sys_modules w !! n
    else sys_modules w !! n.
Proof.
  cbn [assign sys_modules].
  rewrite lookup_alter. destruct (decide (name = n)) as [->|]; reflexivity.
Qed.

(** What [_patch] does to a variant that is installed and not yet
    patched, by the transport module it resolves to. *)
Lemma _patch_own name w m t :
  sys_modules w !! name = Some m ->
  getattr_datadog_patch m = false ->
  transport m = Some t ->
  _patch config name w
  = (Return tt,
     mkWorld
       (<[name := mkESModule (__version__ m) (Some true)
                    (Some (mkTransportModule
                             (FunctionWrapper (perform_request t)
                                              (_get_perform_request config m))
                             (Some Pin_new)))]> (sys_modules w))
       (elastic_transport w)).
Proof.
  intros Hm Hflag Ht. unfold _patch. rewrite Hm, Hflag.
  unfold _determine_transport_module. rewrite setattr_lookup.
  destruct (decide (name = name)) as [_|]; [|congruence].
  rewrite Hm. cbn [fmap option_fmap option_map transport]. rewrite Ht.
  unfold Pin_onto, _w, deref. cbn [mbind option_bind].
  rewrite setattr_lookup. destruct (decide (name = name)) as [_|]; [|congruence].
  rewrite Hm. cbn [fmap option_fmap option_map transport mbind option_bind]. rewrite Ht.
  rewrite assign_own_lookup. destruct (decide (name = name)) as [_|]; [|congruence].
  rewrite setattr_lookup. destruct (decide (name = name)) as [_|]; [|congruence].
  rewrite Hm. cbn [fmap option_fmap option_map transport mbind option_bind perform_request class_pin].
  f_equal. unfold assign, setattr_datadog_patch. cbn [sys_modules elastic_transport].
  f_equal. apply map_eq. intros n.
  rewrite !lookup_alter, lookup_insert.
  destruct (decide (name = n)) as [->|]; [|reflexivity].
  rewrite !decide_True by reflexivity. rewrite Hm. reflexivity.
Qed.

Lemma _patch_shared name w m t :
  sys_modules w !! name = Some m ->
  getattr_datadog_patch m = false ->
  transport m = None ->
  elastic_transport w = Some t ->
  _patch config name w
  = (Return tt,
     mkWorld
       (<[name := mkESModule (__version__ m) (Some true) None]> (sys_modules w))
       (Some (mkTransportModule
                (FunctionWrapper (perform_request t)
                                 (_get_perform_request config m))
                (Some Pin_new)))).
Proof.
  intros Hm Hflag Ht Het. unfold _patch. rewrite Hm, Hflag.
  unfold _determine_transport_module. rewrite setattr_lookup.
  rewrite decide_True by reflexivity.
  rewrite Hm. cbn [fmap option_fmap option_map transport]. rewrite Ht.
  rewrite setattr_elastic, Het.
  unfold _w, deref. rewrite setattr_elastic, Het.
  unfold Pin_onto, deref. cbn [assign elastic_transport sys_modules perform_request class_pin].
  f_equal. unfold setattr_datadog_patch. cbn [sys_modules].
  f_equal. apply map_eq. intros n.
  rewrite lookup_alter, lookup_insert.
  destruct (decide (name = n)) as [->|]; [|reflexivity].
  rewrite Hm. cbn. now rewrite Ht.
Qed.

Lemma _patch_import_error name w m :
  sys_modules w !! name = Some m ->
  getattr_datadog_patch m = false ->
  transport m = None ->
  elastic_transport w = None ->
  _patch config name w
  = (Raise (ImportError "elastic_transport"),
     mkWorld
       (<[name := mkESModule (__version__ m) (Some true) None]> (sys_modules w))
       None).
Proof.
  intros Hm Hflag Ht Het. unfold _patch. rewrite Hm, Hflag.
  unfold _determine_transport_module. rewrite setattr_lookup.
  rewrite decide_True by reflexivity.
  rewrite Hm. cbn [fmap option_fmap option_map transport]. rewrite Ht.
  rewrite setattr_elastic, Het.
  f_equal. unfold setattr_datadog_patch. cbn [sys_modules elastic_transport].
  rewrite Het. f_equal. apply map_eq. intros n.
  rewrite lookup_alter, lookup_insert.
  destruct (decide (name = n)) as [->|]; [|reflexivity].
  rewrite Hm. cbn. now rewrite Ht.
Qed.

Lemma _patch_noop name w :
  patched w name = true -> _patch config name w = (Return tt, w).
Proof.
  unfold patched, _patch. destruct (sys_modules w !! name) as [m|]; [|discriminate].
  now intros ->.
Qed.

Lemma _patch_not_installed name w :
  sys_modules w !! name = None -> _patch config name w = (Return tt, w).
Proof. unfold _patch. now intros ->. Qed.

Lemma _unpatch_noop name w :
  patched w name = false -> _unpatch name w = (Return tt, w).
Proof.
  unfold patched, _unpatch. destruct (sys_modules w !! name) as [m|]; [|reflexivity].
  now intros ->.
Qed.

Lemma _unpatch_own name w m t wrapped wrapper :
  sys_modules w !! name = Some m ->
  getattr_datadog_patch m = true ->
  transport m = Some t ->
  perform_request t = FunctionWrapper wrapped wrapper ->
  _unpatch name w
  = (Return tt,
     mkWorld
       (<[name := mkESModule (__version__ m) (Some false)
                    (Some (mkTransportModule wrapped (class_pin t)))]>
          (sys_modules w))
       (elastic_transport w)).
Proof.
  intros Hm Hflag Ht Hpr. unfold _unpatch. rewrite Hm, Hflag.
  unfold _determine_transport_module. rewrite setattr_lookup.
  rewrite decide_True by reflexivity.
  rewrite Hm. cbn [fmap option_fmap option_map transport]. rewrite Ht.
  unfold _u, deref. cbn [mbind option_bind].
  rewrite setattr_lookup, decide_True by reflexivity.
  rewrite Hm. cbn [fmap option_fmap option_map transport mbind option_bind].
  rewrite Ht, Hpr.
  f_equal. unfold assign, setattr_datadog_patch. cbn [sys_modules elastic_transport].
  f_equal. apply map_eq. intros n.
  rewrite !lookup_alter, lookup_insert.
  destruct (decide (name = n)) as [->|]; [|reflexivity].
  rewrite ?decide_True by reflexivity. rewrite Hm.
  rewrite ?decide_True by reflexivity. reflexivity.
Qed.

Lemma _unpatch_shared name w m t wrapped wrapper :
  sys_modules w !! name = Some m ->
  getattr_datadog_patch m = true ->
  transport m = None ->
  elastic_transport w = Some t ->
  perform_request t = FunctionWrapper wrapped wrapper ->
  _unpatch name w
  = (Return tt,
     mkWorld
       (<[name := mkESModule (__version__ m) (Some false) None]> (sys_modules w))
       (Some (mkTransportModule wrapped (class_pin t)))).
Proof.
  intros Hm Hflag Ht Het Hpr. unfold _unpatch. rewrite Hm, Hflag.
  unfold _determine_transport_module. rewrite setattr_lookup.
  rewrite decide_True by reflexivity.
  rewrite Hm. cbn [fmap option_fmap option_map transport]. rewrite Ht.
  rewrite setattr_elastic, Het.
  unfold _u, deref. rewrite setattr_elastic, Het, Hpr.
  cbn [assign elastic_transport sys_modules perform_request class_pin].
  f_equal. unfold setattr_datadog_patch. cbn [sys_modules].
  f_equal. apply map_eq. intros n.
  rewrite lookup_alter, lookup_insert.
  destruct (decide (name = n)) as [->|]; [|reflexivity].
  rewrite Hm. cbn. now rewrite Ht.
Qed.

(** *** The views of a world after one module has been replaced *)

Lemma patched_update w name m' et n :
  patched (mkWorld (<[name := m']> (sys_modules w)) et) n
  = if decide (name = n) then getattr_datadog_patch m' else patched w n.
Proof.
  unfold patched. cbn [sys_modules]. rewrite lookup_insert.
  destruct (decide (name = n)); reflexivity.
Qed.

Lemma own_method_update w name m' et n :
  own_method (mkWorld (<[name := m']> (sys_modules w)) et) n
  = if decide (name = n) then perform_request <$> transport m'
    else own_method w n.
Proof.
  unfold own_method. cbn [sys_modules]. rewrite lookup_insert.
  destruct (decide (name = n)); [|reflexivity].
  cbn. destruct (transport m'); reflexivity.
Qed.

Lemma uses_shared_update w name m' et n :
  uses_shared (mkWorld (<[name := m']> (sys_modules w)) et) n
  = if decide (name = n)
    then match transport m' with None => true | Some _ => false end
    else uses_shared w n.
Proof.
  unfold uses_shared. cbn [sys_modules]. rewrite lookup_insert.
  destruct (decide (name = n)); [|reflexivity].
  destruct m' as [v f [t|]]; reflexivity.
Qed.

Lemma installed_update w name m' et n :
  is_Some (sys_modules w !! name) ->
  is_Some (sys_modules (mkWorld (<[name := m']> (sys_modules w)) et) !! n)
  <-> is_Some (sys_modules w !! n).
Proof.
  intros Hin. cbn [sys_modules]. rewrite lookup_insert.
  destruct (decide (name = n)) as [<-|]; [|reflexivity].
  split; eauto.
Qed.

Lemma count_where_ext p q l :
  (forall x, In x l -> p x = q x) -> count_where p l = count_where q l.
Proof.
  induction l as [|x l IH]; intros Hpq; simpl; [reflexivity|].
  rewrite (Hpq x) by (now left). rewrite IH; [reflexivity|].
  intros y Hy. apply Hpq. now right.
Qed.

Lemma count_where_flip p q l name :
  List.NoDup l -> In name l ->
  (forall x, x <> name -> p x = q x) ->
  p name = false -> q name = true ->
  count_where q l = S (count_where p l).
Proof.
  intros Hnd. induction Hnd as [|x l Hx Hnd IH]; intros Hin Hpq Hp Hq; [destruct Hin|].
  simpl. destruct Hin as [->|Hin].
  - rewrite Hp, Hq. simpl. f_equal. apply count_where_ext.
    intros y Hy. symmetry. apply Hpq. intros ->. contradiction.
  - rewrite <- (Hpq x) by (intros ->; contradiction).
    rewrite IH by assumption. destruct (p x); reflexivity.
Qed.

Lemma count_where_none p l :
  (forall x, In x l -> p x = false) -> count_where p l = O.
Proof.
  induction l as [|x l IH]; intros Hp; simpl; [reflexivity|].
  rewrite (Hp x) by (now left). apply IH. intros y Hy. apply Hp. now right.
Qed.

Lemma module_names_NoDup : List.NoDup module_names.
Proof.
  unfold module_names.
  repeat (constructor; [simpl; intuition discriminate|]).
  constructor.
Qed.

Lemma uses_shared_own_method w n :
  uses_shared w n = true -> own_method w n = None.
Proof.
  unfold uses_shared, own_method.
  destruct (sys_modules w !! n) as [[v f [t|]]|]; cbn; congruence.
Qed.

Lemma own_method_uses_shared w n m :
  own_method w n = Some m -> uses_shared w n = false.
Proof.
  intros Hm. destruct (uses_shared w n) eqn:Hu; [|reflexivity].
  rewrite (uses_shared_own_method _ _ Hu) in Hm. discriminate.
Qed.

(** One step of patching ([was = false]) or unpatching ([was = true]) of
    the variant [name], seen through the views, keeps the invariant. *)
Lemma invariant_step w0 w w' name (was : bool) :
  In name module_names ->
  patch_invariant w0 w ->
  (forall n, n <> name ->
     patched w' n = patched w n /\ own_method w' n = own_method w n
     /\ uses_shared w' n = uses_shared w n) ->
  uses_shared w' name = uses_shared w name ->
  patched w name = was -> patched w' name = negb was ->
  (forall n, is_Some (sys_modules w' !! n) <-> is_Some (sys_modules w !! n)) ->
  (if uses_shared w name
   then own_method w' name = own_method w name
        /\ exists b wr,
            if was
            then shared_method w = Some (FunctionWrapper b wr)
                 /\ shared_method w' = Some b
            else shared_method w = Some b
                 /\ shared_method w' = Some (FunctionWrapper b wr)
   else shared_method w' = shared_method w
        /\ exists b wr,
            if was
            then own_method w name = Some (FunctionWrapper b wr)
                 /\ own_method w' name = Some b
            else own_method w name = Some b
                 /\ own_method w' name = Some (FunctionWrapper b wr)) ->
  patch_invariant w0 w'.
Proof.
  intros Hname [Iu Io Is Ir Ii] Hother Hu Hwas Hnow Hinst Hstep.
  assert (Hu_all : forall n, uses_shared w' n = uses_shared w n).
  { intros n. destruct (decide (n = name)) as [->|Hn]; [exact Hu|apply Hother, Hn]. }
  assert (Hsome : is_Some (shared_method w) -> is_Some (shared_method w')).
  { destruct (uses_shared w name).
    - destruct Hstep as (_ & b & wr & Hb). destruct was; destruct Hb as [_ ->]; eauto.
    - destruct Hstep as [-> _]. auto. }
  constructor.
  - intros n Hn. rewrite Hu_all. apply Iu, Hn.
  - intros n Hn. specialize (Io n Hn).
    destruct (decide (n = name)) as [->|Hne].
    + destruct (uses_shared w name) eqn:Hus.
      * destruct Hstep as [-> _].
        rewrite (uses_shared_own_method _ _ Hus) in *.
        destruct (own_method w0 name) as [base|]; [|reflexivity].
        destruct Io as (m & Hm & _). discriminate.
      * destruct Hstep as (_ & b & wr & Hb). rewrite Hnow. rewrite Hwas in Io.
        destruct (own_method w0 name) as [base|].
        -- destruct Io as (m & Hm & Hw).
           destruct was; destruct Hb as [Hb ->]; rewrite Hb in Hm;
             injection Hm as <-; eexists; split; try reflexivity; exact Hw.
        -- destruct was; destruct Hb as [Hb _]; congruence.
    + destruct (Hother n Hne) as (-> & -> & _). exact Io.
  - assert (Hdepth :
      if uses_shared w name
      then (if was then shared_depth w = S (shared_depth w')
            else shared_depth w' = S (shared_depth w))
      else shared_depth w' = shared_depth w).
    { destruct (uses_shared w name) eqn:Hus.
      - destruct was.
        + apply (count_where_flip _ _ _ name module_names_NoDup Hname).
          * intros x Hx. destruct (Hother x Hx) as (-> & _ & ->). reflexivity.
          * rewrite Hnow. reflexivity.
          * rewrite Hwas, Hus. reflexivity.
        + apply (count_where_flip _ _ _ name module_names_NoDup Hname).
          * intros x Hx. destruct (Hother x Hx) as (-> & _ & ->). reflexivity.
          * rewrite Hwas. reflexivity.
          * rewrite Hnow, Hu. reflexivity.
      - apply count_where_ext. intros x _.
        destruct (decide (x = name)) as [->|Hx].
        + rewrite Hu, Hus, !andb_false_r. reflexivity.
        + destruct (Hother x Hx) as (-> & _ & ->). reflexivity. }
    destruct (uses_shared w name).
    + destruct Hstep as (_ & b & wr & Hb).
      destruct (shared_method w0) as [base|].
      * destruct Is as (m & Hm & Hw).
        destruct was; destruct Hb as [Hb ->]; rewrite Hb in Hm;
          injection Hm as <-; eexists; (split; [reflexivity|]).
        -- rewrite Hdepth in Hw. exact Hw.
        -- rewrite Hdepth. exact Hw.
      * destruct was; destruct Hb as [Hb _]; congruence.
    + destruct Hstep as [-> _]. rewrite Hdepth. exact Is.
  - intros n Hn Hp Hus. rewrite Hu_all in Hus.
    destruct (decide (n = name)) as [->|Hne].
    + rewrite Hus in Hstep. destruct Hstep as (_ & b & wr & Hb).
      destruct was; destruct Hb as [_ ->]; eauto.
    + destruct (Hother n Hne) as (Hp' & _ & _). rewrite Hp' in Hp.
      apply Hsome, (Ir n Hn Hp Hus).
  - intros n. rewrite Hinst. apply Ii.
Qed.

Lemma count_where_pos p l x :
  In x l -> p x = true -> exists k, count_where p l = S k.
Proof.
  induction l as [|y l IH]; intros Hin Hp; [destruct Hin|].
  simpl. destruct Hin as [->|Hin].
  - rewrite Hp. eauto.
  - destruct (IH Hin Hp) as [k ->]. destruct (p y); eauto.
Qed.

Lemma patched_installed w name m :
  sys_modules w !! name = Some m -> patched w name = getattr_datadog_patch m.
Proof. unfold patched. now intros ->. Qed.

Lemma own_method_installed w name m :
  sys_modules w !! name = Some m ->
  own_method w name = perform_request <$> transport m.
Proof. unfold own_method. intros ->. cbn. destruct (transport m); reflexivity. Qed.

Lemma uses_shared_installed w name m :
  sys_modules w !! name = Some m ->
  uses_shared w name = match transport m with None => true | Some _ => false end.
Proof. unfold uses_shared. intros ->. destruct m as [v f [t|]]; reflexivity. Qed.

Ltac other_views :=
  let n := fresh "n" in
  let Hn := fresh "Hn" in
  intros n Hn;
  rewrite patched_update, own_method_update, uses_shared_update;
  rewrite !decide_False by congruence; auto.

(** A successful [_patch] keeps the invariant and leaves the variant
    patched. *)
Lemma patch_step w0 w w' name :
  In name module_names ->
  patch_invariant w0 w ->
  _patch config name w = (Return tt, w') ->
  patch_invariant w0 w'
  /\ (is_Some (sys_modules w !! name) -> patched w' name = true)
  /\ (forall n, patched w n = true -> patched w' n = true).
Proof.
  intros Hname Hinv Hrun.
  destruct (sys_modules w !! name) as [m|] eqn:Hm.
  2:{ rewrite (_patch_not_installed _ _ Hm) in Hrun. injection Hrun as <-.
      split; [exact Hinv|]. split; [intros [? ?]; discriminate|auto]. }
  destruct (getattr_datadog_patch m) eqn:Hflag.
  { rewrite _patch_noop in Hrun by (now rewrite (patched_installed _ _ _ Hm)).
    injection Hrun as <-. split; [exact Hinv|].
    split; [intros _; now rewrite (patched_installed _ _ _ Hm)|auto]. }
  pose proof (patched_installed _ _ _ Hm) as Hp. rewrite Hflag in Hp.
  pose proof (own_method_installed _ _ _ Hm) as Ho.
  pose proof (uses_shared_installed _ _ _ Hm) as Hu.
  destruct (transport m) as [t|] eqn:Ht.
  - rewrite (_patch_own _ _ _ _ Hm Hflag Ht) in Hrun. injection Hrun as <-.
    split; [|split].
    + apply (invariant_step w0 w _ name false Hname Hinv).
      * other_views.
      * rewrite uses_shared_update, decide_True by reflexivity. now rewrite Hu.
      * exact Hp.
      * rewrite patched_update, decide_True by reflexivity. reflexivity.
      * intros n. apply installed_update. rewrite Hm. eauto.
      * rewrite Hu. split; [reflexivity|].
        exists (perform_request t), (_get_perform_request config m).
        split; [exact Ho|].
        rewrite own_method_update, decide_True by reflexivity. reflexivity.
    + intros _. rewrite patched_update, decide_True by reflexivity. reflexivity.
    + intros n Hn. rewrite patched_update.
      destruct (decide (name = n)); [reflexivity|exact Hn].
  - destruct (elastic_transport w) as [t|] eqn:Het.
    2:{ rewrite (_patch_import_error _ _ _ Hm Hflag Ht Het) in Hrun. discriminate. }
    rewrite (_patch_shared _ _ _ _ Hm Hflag Ht Het) in Hrun. injection Hrun as <-.
    split; [|split].
    + apply (invariant_step w0 w _ name false Hname Hinv).
      * other_views.
      * rewrite uses_shared_update, decide_True by reflexivity. now rewrite Hu.
      * exact Hp.
      * rewrite patched_update, decide_True by reflexivity. reflexivity.
      * intros n. apply installed_update. rewrite Hm. eauto.
      * rewrite Hu. split.
        -- rewrite own_method_update, decide_True by reflexivity. now rewrite Ho.
        -- exists (perform_request t), (_get_perform_request config m).
           unfold shared_method. rewrite Het. split; reflexivity.
    + intros _. rewrite patched_update, decide_True by reflexivity. reflexivity.
    + intros n Hn. rewrite patched_update.
      destruct (decide (name = n)); [reflexivity|exact Hn].
Qed.

(** Under the invariant [_unpatch] returns, keeps the invariant and
    leaves the variant unpatched, the other flags as they were. *)
Lemma unpatch_step w0 w name :
  In name module_names ->
  patch_invariant w0 w ->
  exists w',
    _unpatch name w = (Return tt, w')
    /\ patch_invariant w0 w'
    /\ patched w' name = false
    /\ forall n, n <> name -> patched w' n = patched w n.
Proof.
  intros Hname Hinv.
  destruct (patched w name) eqn:Hp.
  2:{ exists w. rewrite (_unpatch_noop _ _ Hp). auto. }
  destruct (sys_modules w !! name) as [m|] eqn:Hm.
  2:{ unfold patched in Hp. rewrite Hm in Hp. discriminate. }
  pose proof (patched_installed _ _ _ Hm) as Hflag. rewrite Hp in Hflag.
  symmetry in Hflag.
  pose proof (own_method_installed _ _ _ Hm) as Ho.
  pose proof (uses_shared_installed _ _ _ Hm) as Hu.
  destruct (transport m) as [t|] eqn:Ht; cbn [fmap option_fmap option_map] in Ho.
  - assert (Hw : exists wrapped wrapper,
               perform_request t = FunctionWrapper wrapped wrapper).
    { pose proof (inv_own _ _ Hinv name Hname) as Io. rewrite Hp in Io.
      destruct (own_method w0 name) as [base|]; [|congruence].
      destruct Io as (m' & Hm' & Hwr). rewrite Ho in Hm'. injection Hm' as <-.
      destruct (perform_request t); [destruct Hwr|eauto]. }
    destruct Hw as (wrapped & wrapper & Hpr).
    eexists. split; [apply (_unpatch_own _ _ _ _ _ _ Hm Hflag Ht Hpr)|].
    split; [|split].
    + apply (invariant_step w0 w _ name true Hname Hinv).
      * other_views.
      * rewrite uses_shared_update, decide_True by reflexivity. now rewrite Hu.
      * exact Hp.
      * rewrite patched_update, decide_True by reflexivity. reflexivity.
      * intros n. apply installed_update. rewrite Hm. eauto.
      * rewrite Hu. split; [reflexivity|]. exists wrapped, wrapper.
        split; [rewrite Ho; cbn; now rewrite Hpr|].
        rewrite own_method_update, decide_True by reflexivity. reflexivity.
    + rewrite patched_update, decide_True by reflexivity. reflexivity.
    + intros n Hn. rewrite patched_update, decide_False by congruence. reflexivity.
  - assert (Het : exists t wrapped wrapper,
               elastic_transport w = Some t
               /\ perform_request t = FunctionWrapper wrapped wrapper).
    { pose proof (inv_resolve _ _ Hinv name Hname Hp Hu) as [sm Hsm].
      pose proof (inv_shared _ _ Hinv) as Is. rewrite Hsm in Is.
      destruct (shared_method w0) as [base|]; [|discriminate].
      destruct Is as (m' & [= <-] & Hwr).
      destruct (count_where_pos
                  (fun n => patched w n && uses_shared w n) module_names name Hname)
        as [k Hk]; [now rewrite Hp, Hu|].
      unfold shared_depth in Hwr. rewrite Hk in Hwr.
      unfold shared_method in Hsm.
      destruct (elastic_transport w) as [t|]; [|discriminate].
      injection Hsm as <-.
      destruct (perform_request t) eqn:Hpr; [destruct Hwr|eauto]. }
    destruct Het as (t & wrapped & wrapper & Het & Hpr).
    eexists. split; [apply (_unpatch_shared _ _ _ _ _ _ Hm Hflag Ht Het Hpr)|].
    split; [|split].
    + apply (invariant_step w0 w _ name true Hname Hinv).
      * other_views.
      * rewrite uses_shared_update, decide_True by reflexivity. now rewrite Hu.
      * exact Hp.
      * rewrite patched_update, decide_True by reflexivity. reflexivity.
      * intros n. apply installed_update. rewrite Hm. eauto.
      * rewrite Hu. split.
        -- rewrite own_method_update, decide_True by reflexivity. now rewrite Ho.
        -- exists wrapped, wrapper. unfold shared_method. rewrite Het. cbn.
           rewrite Hpr. split; reflexivity.
    + rewrite patched_update, decide_True by reflexivity. reflexivity.
    + intros n Hn. rewrite patched_update, decide_False by congruence. reflexivity.
Qed.

Lemma es_modules_In w n :
  In n (_es_modules w) <-> In n module_names /\ is_Some (sys_modules w !! n).
Proof.
  unfold _es_modules. rewrite <- !list_elem_of_In, list_elem_of_filter. tauto.
Qed.

Lemma es_modules_installed w w' :
  (forall n, is_Some (sys_modules w' !! n) <-> is_Some (sys_modules w !! n)) ->
  _es_modules w' = _es_modules w.
Proof. intros Hi. unfold _es_modules. apply list_filter_iff. exact Hi. Qed.

(** [_patch] on the flags, whatever the world and however it ends. *)
Lemma patch_flags w w' name r :
  _patch config name w = (r, w') ->
  (forall n, is_Some (sys_modules w' !! n) <-> is_Some (sys_modules w !! n))
  /\ (forall n, patched w n = true -> patched w' n = true)
  /\ (r = Return tt -> is_Some (sys_modules w !! name) -> patched w' name = true).
Proof.
  intros Hrun.
  destruct (sys_modules w !! name) as [m|] eqn:Hm.
  2:{ rewrite (_patch_not_installed _ _ Hm) in Hrun. injection Hrun as <- <-.
      split; [reflexivity|]. split; [auto|]. intros _ [? ?]. discriminate. }
  destruct (getattr_datadog_patch m) eqn:Hflag.
  { rewrite _patch_noop in Hrun by (now rewrite (patched_installed _ _ _ Hm)).
    injection Hrun as <- <-. split; [reflexivity|]. split; [auto|].
    intros _ _. now rewrite (patched_installed _ _ _ Hm). }
  assert (Hshape : exists m' et,
             getattr_datadog_patch m' = true
             /\ w' = mkWorld (<[name := m']> (sys_modules w)) et).
  { destruct (transport m) as [t|] eqn:Ht.
    - rewrite (_patch_own _ _ _ _ Hm Hflag Ht) in Hrun. injection Hrun as <- <-.
      eexists _, _. split; [|reflexivity]. reflexivity.
    - destruct (elastic_transport w) as [t|] eqn:Het.
      + rewrite (_patch_shared _ _ _ _ Hm Hflag Ht Het) in Hrun.
        injection Hrun as <- <-. eexists _, _. split; [|reflexivity]. reflexivity.
      + rewrite (_patch_import_error _ _ _ Hm Hflag Ht Het) in Hrun.
        injection Hrun as <- <-. eexists _, _. split; [|reflexivity]. reflexivity. }
  destruct Hshape as (m' & et & Hm' & ->).
  split; [|split].
  - intros n. apply installed_update. rewrite Hm. eauto.
  - intros n Hn. rewrite patched_update. destruct (decide (name = n)); auto.
  - intros _ _. rewrite patched_update, decide_True by reflexivity. exact Hm'.
Qed.

Lemma for_modules_patch_flags names w w' :
  for_modules (_patch config) names w = (Return tt, w') ->
  (forall n, is_Some (sys_modules w' !! n) <-> is_Some (sys_modules w !! n))
  /\ (forall n, patched w n = true -> patched w' n = true)
  /\ (forall n, In n names -> is_Some (sys_modules w !! n) -> patched w' n = true).
Proof.
  revert w. induction names as [|name rest IH]; intros w Hrun; simpl in Hrun.
  - injection Hrun as <-. split; [reflexivity|]. split; [auto|]. intros n [].
  - destruct (_patch config name w) as [[[]|e] w1] eqn:Hstep; [|discriminate].
    destruct (patch_flags _ _ _ _ Hstep) as (Hi1 & Hmono1 & Hset1).
    destruct (IH _ Hrun) as (Hi & Hmono & Hset).
    split; [|split].
    + intros n. rewrite Hi. apply Hi1.
    + auto.
    + intros n [<-|Hn] Hinst.
      * apply Hmono, Hset1; [reflexivity|exact Hinst].
      * apply Hset; [exact Hn|]. apply Hi1, Hinst.
Qed.

Lemma for_modules_patch_noop names w :
  (forall n, In n names -> patched w n = true) ->
  for_modules (_patch config) names w = (Return tt, w).
Proof.
  induction names as [|name rest IH]; intros Hall; simpl; [reflexivity|].
  rewrite _patch_noop by (apply Hall; now left).
  apply IH. intros n Hn. apply Hall. now right.
Qed.

Lemma for_modules_unpatch_noop names w :
  (forall n, In n names -> patched w n = false) ->
  for_modules _unpatch names w = (Return tt, w).
Proof.
  induction names as [|name rest IH]; intros Hall; simpl; [reflexivity|].
  rewrite _unpatch_noop by (apply Hall; now left).
  apply IH. intros n Hn. apply Hall. now right.
Qed.

(** A second [patch()] after a successful one changes nothing. *)
Lemma patch_twice w w1 :
  patch config w = (Return tt, w1) -> patch config w1 = (Return tt, w1).
Proof.
  unfold patch. intros Hrun.
  destruct (for_modules_patch_flags _ _ _ Hrun) as (Hi & _ & Hset).
  rewrite (es_modules_installed _ _ Hi).
  apply for_modules_patch_noop. intros n Hn.
  apply Hset; [exact Hn|]. apply es_modules_In in Hn. tauto.
Qed.

Lemma repeat_call_fixpoint (f : @World W -> outcome unit * @World W) w k :
  f w = (Return tt, w) -> repeat_call f k w = (Return tt, w).
Proof. intros Hf. induction k as [|k IH]; simpl; [reflexivity|]. now rewrite Hf. Qed.

Lemma repeat_patch_once w w1 k :
  patch config w = (Return tt, w1) ->
  repeat_call (patch config) (S k) w = (Return tt, w1).
Proof.
  intros Hrun. simpl. rewrite Hrun.
  apply repeat_call_fixpoint, (patch_twice _ _ Hrun).
Qed.

Lemma unpatched_invariant w0 : unpatched_world w0 -> patch_invariant w0 w0.
Proof.
  intros Hun. unfold unpatched_world in Hun. rewrite List.Forall_forall in Hun.
  constructor.
  - reflexivity.
  - intros name Hname. rewrite (Hun name Hname).
    destruct (own_method w0 name) as [base|]; [|reflexivity].
    exists base. split; reflexivity.
  - destruct (shared_method w0) as [base|]; [|reflexivity].
    exists base. split; [reflexivity|].
    unfold shared_depth. rewrite count_where_none; [reflexivity|].
    intros x Hx. now rewrite (Hun x Hx).
  - intros name Hname Hp. rewrite (Hun name Hname) in Hp. discriminate.
  - reflexivity.
Qed.

Lemma for_modules_patch_invariant w0 names w w' :
  (forall n, In n names -> In n module_names) ->
  patch_invariant w0 w ->
  for_modules (_patch config) names w = (Return tt, w') ->
  patch_invariant w0 w'.
Proof.
  revert w. induction names as [|name rest IH]; intros w Hsub Hinv Hrun;
    simpl in Hrun.
  - now injection Hrun as <-.
  - destruct (_patch config name w) as [[[]|e] w1] eqn:Hstep; [|discriminate].
    apply (IH w1); [intros n Hn; apply Hsub; now right| |exact Hrun].
    apply (patch_step w0 w w1 name); [apply Hsub; now left|exact Hinv|exact Hstep].
Qed.

Lemma patch_invariant_kept w0 w w' :
  patch_invariant w0 w -> patch config w = (Return tt, w') -> patch_invariant w0 w'.
Proof.
  intros Hinv. apply for_modules_patch_invariant; [|exact Hinv].
  intros n Hn. apply es_modules_In in Hn. tauto.
Qed.

Lemma repeat_patch_invariant w0 k w w' :
  patch_invariant w0 w ->
  repeat_call (patch config) k w = (Return tt, w') ->
  patch_invariant w0 w'.
Proof.
  revert w. induction k as [|k IH]; intros w Hinv Hrun; simpl in Hrun.
  - now injection Hrun as <-.
  - destruct (patch config w) as [[[]|e] w1] eqn:Hstep; [|discriminate].
    apply (IH w1); [|exact Hrun]. apply (patch_invariant_kept w0 w w1 Hinv Hstep).
Qed.

Lemma for_modules_unpatch_invariant w0 names w :
  (forall n, In n names -> In n module_names) ->
  patch_invariant w0 w ->
  exists w',
    for_modules _unpatch names w = (Return tt, w')
    /\ patch_invariant w0 w'
    /\ (forall n, In n names -> patched w' n = false)
    /\ (forall n, ~ In n names -> patched w' n = patched w n).
Proof.
  revert w. induction names as [|name rest IH]; intros w Hsub Hinv; simpl.
  - exists w. split; [reflexivity|]. split; [exact Hinv|]. split; [intros n []|auto].
  - destruct (unpatch_step w0 w name) as (w1 & -> & Hinv1 & Hoff & Hother);
      [apply Hsub; now left|exact Hinv|].
    destruct (IH w1) as (w' & -> & Hinv' & Hoff' & Hother');
      [intros n Hn; apply Hsub; now right|exact Hinv1|].
    exists w'. split; [reflexivity|]. split; [exact Hinv'|]. split.
    + intros n [<-|Hn]; [|apply Hoff', Hn].
      destruct (in_dec string_dec name rest) as [Hin|Hout]; [apply Hoff', Hin|].
      rewrite (Hother' _ Hout). exact Hoff.
    + intros n Hn. rewrite Hother' by (intros Hin; apply Hn; now right).
      apply Hother. intros ->. apply Hn. now left.
Qed.

(** [unpatch()] in a world reached by patching an unpatched world [w0]:
    it returns, no variant stays patched and every method is the one of
    [w0]. *)
Lemma unpatch_restores w0 w :
  patch_invariant w0 w ->
  exists w',
    unpatch w = (Return tt, w')
    /\ unpatched_world w'
    /\ (forall name, In name module_names -> own_method w' name = own_method w0 name)
    /\ shared_method w' = shared_method w0.
Proof.
  intros Hinv. unfold unpatch.
  destruct (for_modules_unpatch_invariant w0 (_es_modules w) w)
    as (w' & Hrun & Hinv' & Hoff & Hother);
    [intros n Hn; apply es_modules_In in Hn; tauto|exact Hinv|].
  assert (Hall : forall n, In n module_names -> patched w' n = false).
  { intros n Hn. destruct (in_dec string_dec n (_es_modules w)) as [Hin|Hout].
    - apply Hoff, Hin.
    - rewrite (Hother _ Hout). unfold patched.
      destruct (sys_modules w !! n) as [m|] eqn:Hm; [|reflexivity].
      exfalso. apply Hout, es_modules_In. split; [exact Hn|]. rewrite Hm. eauto. }
  exists w'. split; [exact Hrun|]. split; [|split].
  - unfold unpatched_world. rewrite List.Forall_forall. exact Hall.
  - intros name Hname. pose proof (inv_own _ _ Hinv' name Hname) as Io.
    rewrite (Hall name Hname) in Io.
    destruct (own_method w0 name) as [base|]; [|exact Io].
    destruct Io as (m & -> & ->). reflexivity.
  - pose proof (inv_shared _ _ Hinv') as Is.
    assert (Hd : shared_depth w' = O).
    { unfold shared_depth. apply count_where_none. intros x Hx.
      now rewrite (Hall x Hx). }
    rewrite Hd in Is.
    destruct (shared_method w0) as [base|]; [|exact Is].
    destruct Is as (m & -> & ->). reflexivity.
Qed.

(** C4: [patch()] and [unpatch()] are idempotent for every variant.  A
    variant whose flag is set is left alone by [_patch], one whose flag is
    clear (or missing) by [_unpatch]; once [patch()] has returned, calling
    it any number of times more leaves the very same modules, hence the
    same intercepted method; and after any number of [patch()] calls on
    unpatched modules, [unpatch()] returns with every flag clear and every
    [perform_request], of each variant's own transport and of the shared
    companion, the one it was before patching. *)
Theorem patch_unpatch_idempotent :
  (forall w name,
      patched w name = true -> _patch config name w = (Return tt, w))
  /\ (forall w name,
        patched w name = false -> _unpatch name w = (Return tt, w))
  /\ (forall w w1 k,
        patch config w = (Return tt, w1) ->
        repeat_call (patch config) (S k) w = (Return tt, w1))
  /\ (forall w0 k wk,
        unpatched_world w0 ->
        repeat_call (patch config) k w0 = (Return tt, wk) ->
        exists w',
          unpatch wk = (Return tt, w')
          /\ unpatched_world w'
          /\ (forall name, In name module_names ->
                          own_method w' name = own_method w0 name)
          /\ shared_method w' = shared_method w0).
Proof.
  split; [intros w name; apply _patch_noop|].
  split; [intros w name; apply _unpatch_noop|].
  split; [intros w w1 k; apply repeat_patch_once|].
  intros w0 k wk Hun Hrun. apply unpatch_restores.
  apply (repeat_patch_invariant w0 k w0 wk); [|exact Hrun].
  apply unpatched_invariant, Hun.
Qed.

End PatchFacts.

(** ** The statements on the sample requests *)

Lemma perform_request_passthrough_witness :
  untraced disabled_transport
  /\ sample_call elasticsearch7 answer_took_zero disabled_transport put_index no_kwargs
     = answer_took_zero put_index no_kwargs no_requests.
Proof.
  assert (Hu : untraced disabled_transport) by reflexivity.
  exact (conj Hu
           (@perform_request_passthrough requests sample_builtins sample_config
              elasticsearch7 answer_took_zero disabled_transport put_index
              no_kwargs no_requests Hu)).
Defined.

Lemma transport_error_tagged_and_reraised_witness :
  exists final,
    sample_call elasticsearch7 answer_not_found traced_transport get_index text_body
    = (Raise (TransportError "NotFoundError" (Some (VInt 404))
                             [VStr "index_not_found_exception"]),
       mkState ["GET /test-index"] [final])
    /\ finished final = true
    /\ error_values final = [1]
    /\ tag_values http.STATUS_CODE final = [VInt 404].
Proof.
  destruct (@transport_error_tagged_and_reraised requests sample_builtins
              sample_config elasticsearch7 answer_not_found traced_transport
              sample_pin sample_tracer get_index text_body no_requests
              (sample_tagged elasticsearch7 get_index text_body)
              "NotFoundError" (Some (VInt 404)) [VStr "index_not_found_exception"]
              (mkState ["GET /test-index"] []))
    as (final & Hrun & Hfin & _ & Herr & Hcode).
  - repeat split.
  - vm_compute. reflexivity.
  - vm_compute. reflexivity.
  - exists final. exact (conj Hrun (conj Hfin (conj Herr Hcode))).
Defined.

Lemma took_metric_by_version_witness :
  (exists final,
      sample_call elasticsearch8 answer_took_zero traced_transport put_index no_kwargs
      = (Return (VDict [(VStr "took", VInt 0); (VStr "timed_out", VBool false)]),
         mkState ["PUT /my_index"] [final])
      /\ metric_values metadata.TOOK final = [0])
  /\ (exists final,
        sample_call elasticsearch7 answer_took_zero traced_transport put_index no_kwargs
        = (Return (VDict [(VStr "took", VInt 0); (VStr "timed_out", VBool false)]),
           mkState ["PUT /my_index"] [final])
        /\ metric_values metadata.TOOK final = []).
Proof.
  split.
  - destruct (@took_metric_by_version requests sample_builtins sample_config
                elasticsearch8 answer_took_zero traced_transport sample_pin
                sample_tracer put_index no_kwargs no_requests
                (sample_tagged elasticsearch8 put_index no_kwargs)
                (VDict [(VStr "took", VInt 0); (VStr "timed_out", VBool false)])
                (mkState ["PUT /my_index"] [])
                [(VStr "took", VInt 0); (VStr "timed_out", VBool false)] 0)
      as (final & Hrun & _ & _ & Hzero).
    + repeat split.
    + vm_compute. reflexivity.
    + vm_compute. reflexivity.
    + reflexivity.
    + reflexivity.
    + exists final. exact (conj Hrun (Hzero eq_refl)).
  - destruct (@took_metric_by_version requests sample_builtins sample_config
                elasticsearch7 answer_took_zero traced_transport sample_pin
                sample_tracer put_index no_kwargs no_requests
                (sample_tagged elasticsearch7 put_index no_kwargs)
                (VDict [(VStr "took", VInt 0); (VStr "timed_out", VBool false)])
                (mkState ["PUT /my_index"] [])
                [(VStr "took", VInt 0); (VStr "timed_out", VBool false)] 0)
      as (final & Hrun & _ & _ & Hzero).
    + repeat split.
    + vm_compute. reflexivity.
    + vm_compute. reflexivity.
    + reflexivity.
    + reflexivity.
    + exists final. exact (conj Hrun (Hzero eq_refl)).
Defined.

Lemma extraction_errors_are_swallowed_witness :
  exists final,
    sample_call elasticsearch8 answer_text traced_transport put_index no_kwargs
    = (Return (VStr "green"), mkState ["PUT /my_index"] [final])
    /\ finished final = true
    /\ metric_values metadata.TOOK final = [].
Proof.
  destruct (@extraction_errors_are_swallowed requests sample_builtins
              sample_config elasticsearch8 answer_text traced_transport
              sample_pin sample_tracer put_index no_kwargs no_requests
              (sample_tagged elasticsearch8 put_index no_kwargs)
              (VStr "green") (mkState ["PUT /my_index"] []))
    as (final & Hrun & Hfin & Hnone).
  - repeat split.
  - vm_compute. reflexivity.
  - vm_compute. reflexivity.
  - exists final. exact (conj Hrun (conj Hfin (Hnone I))).
Defined.

Lemma serialization_error_propagates_witness :
  exists final,
    sample_call elasticsearch7 answer_took_zero traced_transport
                ["POST"; "/ddtrace_index/_doc/10"] unserializable_body
    = (Raise (OtherError "SerializationError"
                [VDict [(VStr "created", VTuple [VInt 2016; VInt 1; VInt 1])]]),
       mkState [] [final])
    /\ finished final = true
    /\ tag_values metadata.BODY final = [].
Proof.
  destruct (@serialization_error_propagates requests sample_builtins
              sample_config elasticsearch7 answer_took_zero traced_transport
              sample_pin sample_tracer "POST" "/ddtrace_index/_doc/10"
              unserializable_body no_requests
              "/ddtrace_index/_doc/10" (VDict []) ""
              (OtherError "SerializationError"
                 [VDict [(VStr "created", VTuple [VInt 2016; VInt 1; VInt 1])]]))
    as (final & Hrun & Hfin & Hbody & _).
  - repeat split.
  - reflexivity.
  - reflexivity.
  - reflexivity.
  - reflexivity.
  - exists final. exact (conj Hrun (conj Hfin Hbody)).
Defined.

Lemma body_tag_iff_get_or_post_witness :
  (exists final st',
      sample_call elasticsearch7 answer_took_zero traced_transport put_index no_kwargs
      = (Return (VDict [(VStr "took", VInt 0); (VStr "timed_out", VBool false)]),
         mkState (world st') (spans st' ++ [final]))
      /\ tag_values metadata.METHOD final = [VStr "PUT"]
      /\ tag_values metadata.URL final = [VStr "/my_index"]
      /\ tag_values metadata.BODY final = [])
  /\ (exists final r st',
        sample_call elasticsearch8 answer_took_zero traced_transport get_search text_body
        = (r, mkState (world st') (spans st' ++ [final]))
        /\ tag_values metadata.BODY final = [VStr "{}"]).
Proof.
  split.
  - destruct (@body_tag_iff_get_or_post requests sample_builtins sample_config
                elasticsearch7 answer_took_zero traced_transport sample_pin
                sample_tracer "PUT" "/my_index" no_kwargs no_requests
                (sample_tagged elasticsearch7 put_index no_kwargs))
      as (final & r & st' & url' & params & Hrun & Hf & Hp & Hm & Hu & Hiff & _).
    + repeat split.
    + vm_compute. reflexivity.
    + injection Hf as <- <-. injection Hp as <- _.
      exists final, (mkState ["PUT /my_index"] []).
      refine (conj Hrun (conj Hm (conj Hu _))).
      destruct (tag_values metadata.BODY final) as [|v l]; [reflexivity|].
      assert (Hne : v :: l <> []) by discriminate.
      apply Hiff in Hne. discriminate Hne.
  - destruct (@body_tag_iff_get_or_post requests sample_builtins sample_config
                elasticsearch8 answer_took_zero traced_transport sample_pin
                sample_tracer "GET" search_url text_body no_requests
                (sample_tagged elasticsearch8 get_search text_body))
      as (final & r & st' & url' & params & Hrun & _ & _ & _ & _ & _ & Hbody).
    + repeat split.
    + vm_compute. reflexivity.
    + destruct (Hbody eq_refl) as (text & Htag & Hser & _).
      injection Hser as <-.
      exists final, r, st'. exact (conj Hrun Htag).
Defined.

Lemma patch_unpatch_idempotent_witness :
  unpatched_world sample_world
  /\ @_patch requests sample_builtins sample_config "elasticsearch7"
       patched_sample_world = (Return tt, patched_sample_world)
  /\ repeat_call (@patch requests sample_builtins sample_config) 3 sample_world
     = (Return tt, patched_sample_world)
  /\ exists w',
      unpatch patched_sample_world = (Return tt, w')
      /\ unpatched_world w'
      /\ own_method w' "elasticsearch7" = own_method sample_world "elasticsearch7"
      /\ shared_method w' = shared_method sample_world.
Proof.
  destruct (@patch_unpatch_idempotent requests sample_builtins sample_config)
    as (Hpatch & _ & Hrepeat & Hrestore).
  assert (Hun : unpatched_world sample_world).
  { unfold unpatched_world, module_names.
    repeat (constructor; [vm_compute; reflexivity|]). constructor. }
  assert (Hone : @patch requests sample_builtins sample_config sample_world
                 = (Return tt, patched_sample_world)).
  { apply injective_projections; [vm_compute; reflexivity|reflexivity]. }
  assert (Hflag : patched patched_sample_world "elasticsearch7" = true).
  { vm_compute. reflexivity. }
  pose proof (Hrepeat sample_world patched_sample_world 2%nat Hone) as Hthree.
  destruct (Hrestore sample_world 3%nat patched_sample_world Hun Hthree)
    as (w' & Hrun & Hun' & Hown & Hshared).
  refine (conj Hun (conj (Hpatch _ _ Hflag) (conj Hthree _))).
  exists w'. refine (conj Hrun (conj Hun' (conj (Hown _ _) Hshared))).
  unfold module_names. simpl. tauto.
Defined.

(** The parser's [TypeError] on a bare parameter reaches the caller of a
    traced request to a client from 8.0.0 on: the request is not sent. *)
Lemma bare_parameter_aborts_traced_call :
  exists final,
    sample_call elasticsearch8 answer_took_zero traced_transport
                ["GET"; "/my_index/_search?pretty"] no_kwargs
    = (Raise (TypeError "unhashable type: 'list'"), mkState [] [final])
    /\ finished final = true.
Proof. eexists. split; reflexivity. Qed.

(** ** Further facts about the parser *)

Lemma parse_param_returns acc param acc' :
  parse_param acc param = Return acc' -> count_char "=" param = 1%nat.
Proof.
  intros Hr.
  destruct (count_char "=" param) as [|[|n]] eqn:Hc; [| reflexivity |].
  - rewrite (parse_param_bare _ _ Hc) in Hr. discriminate.
  - rewrite parse_param_many_eq in Hr by lia. discriminate.
Qed.



Lemma split_In_count sep c s x :
  In x (split sep s) -> (count_char c x <= count_char c s)%nat.
Proof.
  revert x. induction s as [|a rest IH]; intros x; simpl.
  - intros [<-|[]]. simpl. lia.
  - destruct (Ascii.eqb a sep).
    + intros [<-|Hin]; simpl; [lia|]. specialize (IH _ Hin). lia.
    + destruct (split sep rest) as [|w ws] eqn:Hs.
      * intros [<-|[]]. simpl. destruct (Ascii.eqb a c); lia.
      * intros [<-|Hin].
        -- specialize (IH w (or_introl eq_refl)). simpl.
           destruct (Ascii.eqb a c); lia.
        -- specialize (IH x (or_intror Hin)). lia.
Qed.

Lemma split_In_no_sep sep s x : In x (split sep s) -> count_char sep x = O.
Proof.
  revert x. induction s as [|a rest IH]; intros x; simpl.
  - intros [<-|[]]. reflexivity.
  - destruct (Ascii.eqb a sep) eqn:Ha.
    + intros [<-|Hin]; [reflexivity|auto].
    + destruct (split sep rest) as [|w ws] eqn:Hs.
      * intros [<-|[]]. simpl. now rewrite Ha.
      * intros [<-|Hin].
        -- simpl. rewrite Ha. apply IH. now left.
        -- apply IH. now right.
Qed.

Lemma py_eq_VStr_true k a : py_eq k (VStr a) = true -> k = VStr a.
Proof.
  destruct k; simpl; try discriminate.
  intros Heq. apply String.eqb_eq in Heq. now subst.
Qed.

Lemma py_eq_VStr a b : py_eq (VStr a) (VStr b) = String.eqb a b.
Proof. reflexivity. Qed.

Lemma dict_store_keys d k v x :
  In x (map fst (dict_store d k v)) -> In x (map fst d) \/ x = k.
Proof.
  induction d as [|[k' v'] d IH]; simpl.
  - intros [<-|[]]. now right.
  - destruct (py_eq k' k); simpl.
    + intros [<-|Hin]; auto.
    + intros [<-|Hin]; auto. destruct (IH Hin); auto.
Qed.

Lemma dict_store_length d k v :
  (length (dict_store d k v) <= S (length d))%nat.
Proof.
  induction d as [|[k' v'] d IH]; simpl; [lia|].
  destruct (py_eq k' k); simpl; lia.
Qed.

Lemma dict_store_parsed d k v :
  Forall parsed_item d -> List.NoDup (map fst d) -> parsed_item (VStr k, VStr v) ->
  Forall parsed_item (dict_store d (VStr k) (VStr v))
  /\ List.NoDup (map fst (dict_store d (VStr k) (VStr v))).
Proof.
  intros Hall Hnd Hitem. induction d as [|[k' v'] d IH]; simpl.
  - split; [constructor; [exact Hitem|constructor]|].
    constructor; [intros []|constructor].
  - inversion Hall as [|? ? Hhead Htail]; subst.
    inversion Hnd as [|? ? Hfresh Hnd']; subst.
    destruct (py_eq k' (VStr k)) eqn:Heq.
    + apply py_eq_VStr_true in Heq. subst k'. split.
      * constructor; [exact Hitem|exact Htail].
      * simpl. constructor; assumption.
    + destruct (IH Htail Hnd') as [IHall IHnd]. split.
      * constructor; assumption.
      * simpl. constructor; [|exact IHnd].
        intros Hin. apply dict_store_keys in Hin as [Hin| ->]; [contradiction|].
        destruct Hhead as (a & b & [= -> ->] & _).
        rewrite py_eq_VStr, String.eqb_refl in Heq. discriminate.
Qed.

(** What one parameter does to the mapping, when the parser accepts it. *)
Lemma parse_param_accepted acc param acc' :
  parse_param acc param = Return acc' ->
  exists k v,
    split "=" param = [k; v]
    /\ acc' = if nonempty_string k
              then dict_store acc (VStr k) (VStr (urldecode v)) else acc.
Proof.
  intros Hr. pose proof (parse_param_returns _ _ _ Hr) as Hc.
  pose proof (split_length "=" param) as Hl. rewrite Hc in Hl.
  unfold parse_param in Hr.
  destruct (split "=" param) as [|k [|v [|x l]]]; try discriminate.
  exists k, v. split; [reflexivity|].
  cbn in Hr. destruct (nonempty_string k); now injection Hr as <-.
Qed.

Lemma for_each_parsed params acc acc' :
  for_each parse_param params acc = Return acc' ->
  Forall (fun p => count_char "&" p = O) params ->
  Forall parsed_item acc -> List.NoDup (map fst acc) ->
  Forall parsed_item acc' /\ List.NoDup (map fst acc')
  /\ (length acc' <= length acc + length params)%nat.
Proof.
  revert acc. induction params as [|p params IH]; intros acc Hr Hamp Hall Hnd;
    simpl in Hr.
  - injection Hr as <-. repeat split; [assumption|assumption|simpl; lia].
  - destruct (parse_param acc p) as [acc1|e] eqn:Hp; [|discriminate].
    inversion Hamp as [|? ? Hp_amp Hamp']; subst.
    destruct (parse_param_accepted _ _ _ Hp) as (k & v & Hs & ->).
    assert (Hk : In k (split "=" p)) by (rewrite Hs; now left).
    destruct (nonempty_string k) eqn:Hne.
    + assert (Hitem : parsed_item (VStr k, VStr (urldecode v))).
      { exists k, (urldecode v). split; [reflexivity|]. split; [exact Hne|].
        split; [exact (split_In_no_sep _ _ _ Hk)|].
        pose proof (split_In_count "=" "&" p k Hk). lia. }
      destruct (dict_store_parsed acc k (urldecode v) Hall Hnd Hitem) as [Hall1 Hnd1].
      destruct (IH _ Hr Hamp' Hall1 Hnd1) as (Ha & Hb & Hc).
      repeat split; [assumption|assumption|].
      pose proof (dict_store_length acc (VStr k) (VStr (urldecode v))).
      simpl. lia.
    + destruct (IH _ Hr Hamp' Hall Hnd) as (Ha & Hb & Hc).
      repeat split; [assumption|assumption|simpl; lia].
Qed.

(** X2: whenever the 8.x parser returns, the path is the path component of
    the URL and the mapping is well formed: every name is a non-empty text
    without [=] or [&], every value is a text, no name occurs twice, and
    there are at most as many items as parameters. *)
Theorem parse_urlparams_result_well_formed (url p : string) (d : dict) :
  _parse_elasticsearch8_urlparams url = Return (p, d) ->
  p = path (urlparse url)
  /\ Forall parsed_item d
  /\ List.NoDup (map fst d)
  /\ (length d <= length (split "&" (query (urlparse url))))%nat.
Proof.
  unfold _parse_elasticsearch8_urlparams.
  destruct (nonempty_string (query (urlparse url))).
  - destruct (for_each parse_param (split "&" (query (urlparse url))) [])
      as [d'|e] eqn:Hf; [|discriminate].
    cbn. intros [= <- <-]. split; [reflexivity|].
    apply (for_each_parsed _ [] d' Hf); [|constructor|constructor].
    apply List.Forall_forall. intros x Hx. exact (split_In_no_sep _ _ _ Hx).
  - cbn. intros [= <- <-]. split; [reflexivity|]. split; [constructor|].
    split; [constructor|]. simpl. lia.
Qed.

Lemma parse_urlparams_result_well_formed_witness :
  Forall parsed_item [(VStr "sort", VStr "name:desc"); (VStr "size", VStr "100")]
  /\ List.NoDup (map fst [(VStr "sort", VStr "name:desc"); (VStr "size", VStr "100")]).
Proof.
  destruct (parse_urlparams_result_well_formed search_url "/ddtrace_index/_search"
              [(VStr "sort", VStr "name:desc"); (VStr "size", VStr "100")] eq_refl)
    as (_ & Hitems & Hkeys & _).
  exact (conj Hitems Hkeys).
Defined.

Lemma dict_get_store_same d k v :
  dict_get (dict_store d (VStr k) v) (VStr k) = v.
Proof.
  induction d as [|[k' v'] d IH]; simpl.
  - now rewrite String.eqb_refl.
  - destruct (py_eq k' (VStr k)) eqn:Heq; simpl; now rewrite Heq.
Qed.

Lemma dict_get_store_other d k1 k2 v :
  k1 <> k2 ->
  dict_get (dict_store d (VStr k1) v) (VStr k2) = dict_get d (VStr k2).
Proof.
  intros Hne. apply String.eqb_neq in Hne.
  induction d as [|[k' v'] d IH]; simpl.
  - now rewrite Hne.
  - destruct (py_eq k' (VStr k1)) eqn:Heq; simpl.
    + apply py_eq_VStr_true in Heq. subst k'. rewrite py_eq_VStr, Hne. reflexivity.
    + now rewrite IH.
Qed.

Lemma split_at_sep sep k v :
  count_char sep k = O ->
  split sep (k ++ String sep v) = k :: split sep v.
Proof.
  induction k as [|c k IH]; simpl.
  - intros _. now rewrite Ascii.eqb_refl.
  - destruct (Ascii.eqb c sep); [discriminate|]. simpl.
    intros Hc. now rewrite (IH Hc).
Qed.

Lemma for_each_keeps_other params acc acc' k :
  for_each parse_param params acc = Return acc' ->
  Forall (fun q => param_key q <> k) params ->
  dict_get acc' (VStr k) = dict_get acc (VStr k).
Proof.
  revert acc. induction params as [|p params IH]; intros acc Hr Hkeys; simpl in Hr.
  - now injection Hr as <-.
  - destruct (parse_param acc p) as [acc1|e] eqn:Hp; [|discriminate].
    inversion Hkeys as [|? ? Hp_key Hkeys']; subst.
    rewrite (IH _ Hr Hkeys').
    destruct (parse_param_accepted _ _ _ Hp) as (k' & v' & Hs & ->).
    unfold param_key in Hp_key. rewrite Hs in Hp_key. simpl in Hp_key.
    destruct (nonempty_string k'); [|reflexivity].
    now apply dict_get_store_other.
Qed.

(** X3: when the 8.x parser returns and a name occurs in several
    parameters, the last one decides: the name, taken as written (it is
    not URL-decoded), maps to the URL-decoded value of the last parameter
    that carries it. *)
Theorem parse_urlparams_last_value_wins (url p : string) (d : dict)
    (pre post : list string) (k v : string) :
  _parse_elasticsearch8_urlparams url = Return (p, d) ->
  split "&" (query (urlparse url))
  = (pre ++ ((k ++ "=" ++ v)%string :: post))%list ->
  nonempty_string k = true ->
  count_char "=" k = O ->
  Forall (fun q => param_key q <> k) post ->
  dict_get d (VStr k) = VStr (urldecode v).
Proof.
  unfold _parse_elasticsearch8_urlparams. intros Hr Hsplit Hne Hk Hpost.
  destruct (query (urlparse url)) as [|c q] eqn:Hq.
  { simpl in Hsplit. destruct pre as [|? [|? ?]]; simpl in Hsplit; try discriminate.
    injection Hsplit as Hs _. destruct k; discriminate. }
  cbn [nonempty_string] in Hr. rewrite Hsplit, for_each_app in Hr.
  destruct (for_each parse_param pre []) as [d1|e] eqn:Hpre; [|discriminate].
  cbn [obind for_each] in Hr.
  destruct (parse_param d1 (k ++ "=" ++ v)) as [d2|e] eqn:Hp; [|discriminate].
  cbn [obind mbind outcome_bind] in Hr.
  destruct (for_each parse_param post d2) as [d3|e] eqn:Hrest; [|discriminate].
  cbn in Hr. injection Hr as _ <-.
  rewrite (for_each_keeps_other _ _ _ _ Hrest Hpost).
  destruct (parse_param_accepted _ _ _ Hp) as (k' & v' & Hs & ->).
  change (k ++ "=" ++ v) with (k ++ String "=" v) in Hs.
  rewrite (split_at_sep "=" k v Hk) in Hs.
  destruct (split "=" v) as [|v1 [|? ?]] eqn:Hv; try discriminate.
  injection Hs as <- <-.
  assert (Hv1 : v1 = v).
  { pose proof (split_length "=" v) as Hl. rewrite Hv in Hl. simpl in Hl.
    assert (Hc : count_char "=" v = O) by lia.
    rewrite (split_no_sep _ _ Hc) in Hv. now injection Hv as <-. }
  subst v1. rewrite Hne. apply dict_get_store_same.
Qed.

Lemma parse_urlparams_last_value_wins_witness :
  _parse_elasticsearch8_urlparams "/ddtrace_index/_search?size=10&q=a%20b&size=100"
  = Return ("/ddtrace_index/_search", [(VStr "size", VStr "100"); (VStr "q", VStr "a b")])
  /\ dict_get [(VStr "size", VStr "100"); (VStr "q", VStr "a b")] (VStr "size")
     = VStr (urldecode "100").
Proof.
  assert (Hrun : _parse_elasticsearch8_urlparams
                   "/ddtrace_index/_search?size=10&q=a%20b&size=100"
                 = Return ("/ddtrace_index/_search",
                           [(VStr "size", VStr "100"); (VStr "q", VStr "a b")]))
    by reflexivity.
  refine (conj Hrun
            (parse_urlparams_last_value_wins _ _ _ ["size=10"; "q=a%20b"] []
               "size" "100" Hrun eq_refl eq_refl eq_refl _)).
  constructor.
Defined.

Lemma count_char_app c a b :
  count_char c (a ++ b) = (count_char c a + count_char c b)%nat.
Proof. induction a as [|x a IH]; simpl; [reflexivity|]. rewrite IH. lia. Qed.

Lemma quote_plus_cons c rest :
  quote_plus (String c rest) = quote_char c ++ quote_plus rest.
Proof.
  unfold quote_char. simpl.
  destruct (is_unreserved c); [reflexivity|].
  destruct (Ascii.eqb c " "); reflexivity.
Qed.

(** What encoding writes for a character holds neither [&] nor [=]. *)
Lemma quote_char_clean c :
  count_char "&" (quote_char c) = O /\ count_char "=" (quote_char c) = O.
Proof.
  destruct c as [[] [] [] [] [] [] [] []]; split; vm_compute; reflexivity.
Qed.

(** Decoding gives an encoded character back, unless it is a space. *)
Lemma urldecode_quote_char c tail :
  c <> " "%char -> urldecode (quote_char c ++ tail) = String c (urldecode tail).
Proof.
  intros Hsp.
  destruct c as [[] [] [] [] [] [] [] []];
    first [reflexivity | exfalso; apply Hsp; reflexivity].
Qed.

Lemma quote_plus_clean s :
  count_char "&" (quote_plus s) = O /\ count_char "=" (quote_plus s) = O.
Proof.
  induction s as [|c s [IH1 IH2]]; [split; reflexivity|].
  rewrite quote_plus_cons, !count_char_app, IH1, IH2.
  destruct (quote_char_clean c) as [-> ->]. split; reflexivity.
Qed.

Lemma urldecode_quote_plus s :
  count_char " " s = O -> urldecode (quote_plus s) = s.
Proof.
  induction s as [|c s IH]; [reflexivity|].
  simpl count_char. destruct (Ascii.eqb c " ") eqn:Hc; [discriminate|].
  intros Hs. rewrite quote_plus_cons, urldecode_quote_char.
  - now rewrite (IH Hs).
  - intros ->. discriminate.
Qed.

Lemma quote_plus_unreserved k :
  string_forall is_unreserved k = true -> quote_plus k = k.
Proof.
  induction k as [|c k IH]; simpl; [reflexivity|].
  destruct (is_unreserved c); [|discriminate].
  simpl. intros Hk. now rewrite (IH Hk).
Qed.

Lemma unreserved_clean k :
  string_forall is_unreserved k = true ->
  count_char "&" k = O /\ count_char "=" k = O.
Proof.
  intros Hk. rewrite <- (quote_plus_unreserved k Hk). apply quote_plus_clean.
Qed.

Lemma split_join sep parts :
  parts <> [] ->
  Forall (fun p => count_char sep p = O) parts ->
  split sep (join (String sep EmptyString) parts) = parts.
Proof.
  intros Hne Hall. induction Hall as [|p parts Hp Hall IH]; [contradiction|].
  destruct parts as [|q parts].
  - simpl. apply split_no_sep, Hp.
  - change (join (String sep EmptyString) (p :: q :: parts))
      with (p ++ String sep (join (String sep EmptyString) (q :: parts))).
    rewrite (split_at_sep sep p _ Hp), IH by discriminate. reflexivity.
Qed.

Lemma dict_store_fresh d k v :
  ~ In (VStr k) (map fst d) ->
  dict_store d (VStr k) v = (d ++ [(VStr k, v)])%list.
Proof.
  induction d as [|[k' v'] d IH]; simpl; [reflexivity|].
  intros Hfresh. destruct (py_eq k' (VStr k)) eqn:Heq.
  - apply py_eq_VStr_true in Heq. subst k'. exfalso. apply Hfresh. now left.
  - rewrite IH; [reflexivity|]. intros Hin. apply Hfresh. now right.
Qed.

Section RoundTrip.
Context `{PyBuiltins}.

Lemma encoded_item_parsed acc k v :
  nonempty_string k = true ->
  string_forall is_unreserved k = true ->
  count_char " " v = O ->
  ~ In (VStr k) (map fst acc) ->
  parse_param acc (encoded_item (VStr k, VStr v))
  = Return (acc ++ [(VStr k, VStr v)])%list.
Proof.
  intros Hne Hk Hv Hfresh. unfold encoded_item, quote_item. cbn [fst snd py_str].
  rewrite (quote_plus_unreserved k Hk).
  destruct (unreserved_clean k Hk) as [_ Hk_eq].
  destruct (quote_plus_clean v) as [_ Hv_eq].
  unfold parse_param.
  change (k ++ "=" ++ quote_plus v) with (k ++ String "=" (quote_plus v)).
  rewrite (split_at_sep "=" k _ Hk_eq), (split_no_sep _ _ Hv_eq).
  cbn [length Nat.ltb Nat.leb]. rewrite Hne, (urldecode_quote_plus v Hv).
  unfold dict_setitem. cbn [unhashable_type].
  now rewrite dict_store_fresh.
Qed.

Lemma encoded_item_clean item :
  encodable_item item -> count_char "&" (encoded_item item) = O.
Proof.
  intros (k & v & -> & _ & Hk & _). unfold encoded_item, quote_item.
  cbn [fst snd py_str]. rewrite (quote_plus_unreserved k Hk).
  rewrite !count_char_app.
  destruct (unreserved_clean k Hk) as [-> _].
  destruct (quote_plus_clean v) as [-> _]. reflexivity.
Qed.

Lemma for_each_encoded items acc :
  Forall encodable_item items ->
  List.NoDup (map fst (acc ++ items)) ->
  for_each parse_param (map encoded_item items) acc = Return (acc ++ items)%list.
Proof.
  intros Hall. revert acc. induction Hall as [|item items Hitem Hall IH];
    intros acc Hnd; simpl.
  - now rewrite app_nil_r.
  - destruct Hitem as (k & v & -> & Hne & Hk & Hv).
    rewrite encoded_item_parsed; try assumption.
    + simpl. rewrite IH; rewrite <- app_assoc; [reflexivity|exact Hnd].
    + rewrite map_app in Hnd. apply List.NoDup_remove_2 in Hnd.
      intros Hin. apply Hnd. apply in_or_app. now left.
Qed.

(** X4: URL-encoding a mapping and parsing the result as a query string
    gives the mapping back, item for item and in the same order, whenever
    its names are distinct non-empty texts of unreserved characters and its
    values are texts without spaces. *)
Theorem urlencode_parse_round_trip (url : string) (d : dict) :
  Forall encodable_item d ->
  List.NoDup (map fst d) ->
  urlencode (VDict d) = Return (query (urlparse url)) ->
  _parse_elasticsearch8_urlparams url = Return (path (urlparse url), d).
Proof.
  intros Hall Hnd Henc. unfold urlencode in Henc. injection Henc as Henc.
  change (join "&" (map encoded_item d) = query (urlparse url)) in Henc.
  unfold _parse_elasticsearch8_urlparams. rewrite <- Henc.
  destruct d as [|item d]; [reflexivity|].
  assert (Hq : nonempty_string (join "&" (map encoded_item (item :: d))) = true).
  { inversion Hall as [|? ? (k & v & -> & Hne & _) _]; subst.
    unfold encoded_item, quote_item. cbn [fst snd py_str map join].
    destruct k as [|c k]; [discriminate|].
    simpl. destruct (is_unreserved c); destruct (map _ d); try reflexivity;
      destruct (Ascii.eqb c " "); reflexivity. }
  rewrite Hq, split_join.
  - rewrite (for_each_encoded (item :: d) [] Hall Hnd). reflexivity.
  - discriminate.
  - apply List.Forall_forall. intros p Hp. apply in_map_iff in Hp as (it & <- & Hit).
    apply encoded_item_clean. rewrite List.Forall_forall in Hall. auto.
Qed.

End RoundTrip.

Lemma urlencode_parse_round_trip_witness :
  _parse_elasticsearch8_urlparams "/ddtrace_index/_search?q=a%3Db%26c&size=100"
  = Return ("/ddtrace_index/_search",
            [(VStr "q", VStr "a=b&c"); (VStr "size", VStr "100")]).
Proof.
  apply (@urlencode_parse_round_trip sample_builtins
           "/ddtrace_index/_search?q=a%3Db%26c&size=100"
           [(VStr "q", VStr "a=b&c"); (VStr "size", VStr "100")]).
  - constructor; [exists "q", "a=b&c"; repeat split|].
    constructor; [exists "size", "100"; repeat split|]. constructor.
  - constructor; [simpl; intuition discriminate|].
    constructor; [simpl; tauto|constructor].
  - reflexivity.
Defined.

(** ** Further facts about the interceptor *)

Lemma same_span_refl a : same_span a a.
Proof. repeat split. Qed.

Lemma same_span_record a op : same_span (record_op a op) a.
Proof. repeat split. Qed.

Lemma same_span_trans a b c : same_span a b -> same_span b c -> same_span a c.
Proof.
  intros (H1 & H2 & H3 & H4) (G1 & G2 & G3 & G4).
  repeat split; congruence.
Qed.

Section InterceptorMore.
Context {W : Type} `{PyBuiltins}.
Variable config : Config.

(** A call on an instance whose pin is enabled, whether sampled or not. *)
Lemma perform_request_enabled (elasticsearch : @ESModule W) func instance pin
    args kwargs st :
  Pin_get_from instance = Some pin ->
  Pin_enabled pin = true ->
  exists t,
    tracer pin = Some t
    /\ _perform_request config elasticsearch func instance args kwargs st
       = trace t "elasticsearch.query" (ext_service pin config)
               SpanTypes.ELASTICSEARCH
               (traced_request config elasticsearch func instance args kwargs) st.
Proof.
  intros Hpin Hen. unfold _perform_request. rewrite Hpin, Hen. simpl.
  unfold Pin_enabled in Hen. destruct (tracer pin) as [t|]; [|discriminate].
  exists t. split; reflexivity.
Qed.

Lemma tag_request_same_span (elasticsearch : @ESModule W) instance args kwargs
    span0 r span :
  tag_request config elasticsearch instance args kwargs span0 = (r, span) ->
  same_span span span0.
Proof.
  unfold tag_request.
  destruct args as [|method [|url [|x args]]];
    try (intros [= _ <-]; apply same_span_refl).
  destruct (request_params elasticsearch url kwargs) as [[url' params]|e];
    [|intros [= _ <-]; apply same_span_refl].
  destruct (urlencode params) as [encoded|e];
    [|intros [= _ <-]; apply same_span_refl].
  destruct (is_get_or_post method);
    [destruct (serialize_body elasticsearch instance (kwargs_get kwargs "body"))|];
    destruct (trace_query_string config);
    intros [= _ <-]; repeat split.
Qed.

Lemma tag_result_same_span (elasticsearch : @ESModule W) result span :
  same_span (tag_result elasticsearch result span) span.
Proof.
  unfold tag_result. destruct (result_shape result) as [status data].
  destruct (took_metric elasticsearch data) as [[n|]|e];
    destruct (truthy status); repeat split.
Qed.

(** X5: every call on an instance whose pin is enabled closes exactly one
    span, named [elasticsearch.query], of type [elasticsearch] and with
    the service of [ext_service], whether it is sampled or not and however
    the call ends; and the wrapper is transparent: either it raised
    before delegating and the original method was never called, or the
    original method was called once and its outcome is the outcome of the
    call. *)
Theorem enabled_call_closes_one_span (elasticsearch : @ESModule W) func instance
    pin args kwargs st :
  Pin_get_from instance = Some pin ->
  Pin_enabled pin = true ->
  exists r final st',
    _perform_request config elasticsearch func instance args kwargs st
    = (r, mkState (world st') (spans st' ++ [final]))
    /\ finished final = true
    /\ span_name final = "elasticsearch.query"
    /\ span_type final = SpanTypes.ELASTICSEARCH
    /\ span_service final = ext_service pin config
    /\ ((st' = st /\ is_raise r) \/ func args kwargs st = (r, st')).
Proof.
  intros Hpin Hen.
  destruct (perform_request_enabled elasticsearch func instance pin args kwargs st
              Hpin Hen) as (t & Ht & ->).
  unfold trace, traced_request.
  set (span0 := start_span t "elasticsearch.query" (ext_service pin config)
                           SpanTypes.ELASTICSEARCH).
  set (span1 := set_tag span0 SPAN_MEASURED_KEY VNone).
  assert (Hstatic : forall s, same_span s span1 ->
             finished (finish s) = true
             /\ span_name (finish s) = "elasticsearch.query"
             /\ span_type (finish s) = SpanTypes.ELASTICSEARCH
             /\ span_service (finish s) = ext_service pin config).
  { intros s (H1 & H2 & H3 & _). cbn [finish finished span_name span_type span_service].
    rewrite H1, H2, H3. repeat split. }
  destruct (negb (sampled span1)).
  - destruct (func args kwargs st) as [r st'] eqn:Hf.
    exists r, (finish span1), st'. split; [reflexivity|].
    destruct (Hstatic span1 (same_span_refl _)) as (A & B & C & D).
    repeat (split; [assumption|]). now right.
  - destruct (tag_request config elasticsearch instance args kwargs span1)
      as [[[]|e] span2] eqn:Htag.
    + pose proof (tag_request_same_span _ _ _ _ _ _ _ Htag) as Hsame.
      destruct (func args kwargs st) as [[result|e] st'] eqn:Hf.
      * exists (Return result), (finish (tag_result elasticsearch result span2)), st'.
        split; [reflexivity|].
        destruct (Hstatic _ (same_span_trans _ _ _
                               (tag_result_same_span elasticsearch result span2) Hsame))
          as (A & B & C & D).
        repeat (split; [assumption|]). now right.
      * destruct (is_transport_error e).
        -- eexists (Raise e), _, st'. split; [reflexivity|].
           destruct (Hstatic (set_error (set_tag span2 http.STATUS_CODE
                                                 (status_code_of e)) 1)) as (A & B & C & D).
           { eapply same_span_trans; [apply same_span_record|].
             eapply same_span_trans; [apply same_span_record|exact Hsame]. }
           repeat (split; [assumption|]). now right.
        -- exists (Raise e), (finish span2), st'. split; [reflexivity|].
           destruct (Hstatic _ Hsame) as (A & B & C & D).
           repeat (split; [assumption|]). now right.
    + pose proof (tag_request_same_span _ _ _ _ _ _ _ Htag) as Hsame.
      exists (Raise e), (finish span2), st. split; [reflexivity|].
      destruct (Hstatic _ Hsame) as (A & B & C & D).
      repeat (split; [assumption|]). left. split; [reflexivity|exact I].
Qed.

(** X6: when the tracer does not sample the span, the call is the original
    call with one closed span added that carries the measured tag and
    nothing else: the arguments are not even inspected, so no request is
    ever failed by the instrumentation of an unsampled span. *)
Theorem unsampled_call_is_delegated_untagged (elasticsearch : @ESModule W) func
    instance pin t args kwargs st r st' :
  Pin_get_from instance = Some pin ->
  tracer pin = Some t ->
  enabled t = true ->
  sampled (request_span config pin t) = false ->
  func args kwargs st = (r, st') ->
  _perform_request config elasticsearch func instance args kwargs st
  = (r, mkState (world st') (spans st' ++ [finish (request_span config pin t)]))
  /\ ops (finish (request_span config pin t)) = [SetTag SPAN_MEASURED_KEY VNone].
Proof.
  intros Hpin Ht Hen Hs Hf. split; [|reflexivity].
  unfold _perform_request, Pin_enabled. rewrite Hpin, Ht, Hen. simpl.
  unfold trace, traced_request. fold (request_span config pin t).
  rewrite Hs, Hf. reflexivity.
Qed.

(** X7: an exception of the original call that is not a transport error
    passes through a traced, sampled call untouched, and leaves no trace
    on the span: after the tagging neither a status code nor the error
    flag is set by the module. *)
Theorem other_exception_passes_untagged (elasticsearch : @ESModule W) func
    instance pin t args kwargs st span e st' :
  traced_and_sampled config instance pin t ->
  tag_request config elasticsearch instance args kwargs (request_span config pin t)
  = (Return tt, span) ->
  func args kwargs st = (Raise e, st') ->
  is_transport_error e = false ->
  _perform_request config elasticsearch func instance args kwargs st
  = (Raise e, mkState (world st') (spans st' ++ [finish span]))
  /\ error_values (finish span) = []
  /\ tag_values http.STATUS_CODE (finish span) = [].
Proof.
  intros Htr Htag Hf He.
  rewrite (perform_request_traced _ _ _ _ _ _ _ _ _ Htr), Htag, Hf, He.
  split; [reflexivity|].
  destruct (tagged_span_clean _ _ _ _ _ _ _ _ Htag) as (_ & Herr & Hstatus).
  split; assumption.
Qed.

(** X8: a traced, sampled call that is not given exactly two positional
    arguments raises [ValueError] from the unpacking of [args]; the
    original method is not called and the span is closed with the measured
    tag only. *)
Theorem wrong_arity_aborts_traced_call (elasticsearch : @ESModule W) func
    instance pin t args kwargs st :
  traced_and_sampled config instance pin t ->
  length args <> 2%nat ->
  exists msg,
    _perform_request config elasticsearch func instance args kwargs st
    = (Raise (ValueError msg),
       mkState (world st) (spans st ++ [finish (request_span config pin t)])).
Proof.
  intros Htr Hlen.
  rewrite (perform_request_traced _ _ _ _ _ _ _ _ _ Htr). unfold tag_request.
  destruct args as [|a [|b [|c args]]]; try (eexists; reflexivity).
  contradiction Hlen. reflexivity.
Qed.

(** X9: for a client from 8.0.0 on, an exception of the URL parser is the
    outcome of the traced, sampled call: a URL the parser rejects makes the
    instrumentation fail a request that the original method is never given
    the chance to serve. *)
Theorem parser_error_aborts_traced_call (elasticsearch : @ESModule W) func
    instance pin t method url kwargs st e :
  traced_and_sampled config instance pin t ->
  is_es8 elasticsearch = true ->
  _parse_elasticsearch8_urlparams url = Raise e ->
  _perform_request config elasticsearch func instance [method; url] kwargs st
  = (Raise e,
     mkState (world st) (spans st ++ [finish (request_span config pin t)])).
Proof.
  intros Htr H8 Hparse.
  rewrite (perform_request_traced _ _ _ _ _ _ _ _ _ Htr).
  unfold tag_request, request_params. rewrite H8, Hparse. reflexivity.
Qed.

Lemma existsb_is_quantize_app l1 l2 :
  existsb is_quantize (l1 ++ l2) = existsb is_quantize l1 || existsb is_quantize l2.
Proof. apply existsb_app. Qed.

(** What follows the tagging on the span of a traced, sampled call: only
    a status code, the took metric and the error flag can be added. *)
Lemma traced_call_tail (elasticsearch : @ESModule W) func instance pin t args
    kwargs st span :
  traced_and_sampled config instance pin t ->
  tag_request config elasticsearch instance args kwargs (request_span config pin t)
  = (Return tt, span) ->
  exists final r st' tail,
    _perform_request config elasticsearch func instance args kwargs st
    = (r, mkState (world st') (spans st' ++ [final]))
    /\ func args kwargs st = (r, st')
    /\ ops final = (ops span ++ tail)%list
    /\ (forall key, key <> http.STATUS_CODE -> tag_values_of key tail = [])
    /\ existsb is_quantize tail = false.
Proof.
  intros Htr Htag.
  rewrite (perform_request_traced _ _ _ _ _ _ _ _ _ Htr), Htag.
  destruct (func args kwargs st) as [[result|e] st'].
  - exists (finish (tag_result elasticsearch result span)), (Return result), st',
      (result_ops elasticsearch result).
    split; [reflexivity|]. split; [reflexivity|].
    split; [apply tag_result_ops|]. unfold result_ops. split.
    + intros key Hkey. rewrite tag_values_of_app.
      apply String.eqb_neq in Hkey. rewrite String.eqb_sym in Hkey.
      unfold http.STATUS_CODE in *.
      destruct (took_metric _ _) as [[n|]|]; destruct (truthy _);
        cbn -[String.eqb]; rewrite ?Hkey; reflexivity.
    + destruct (took_metric _ _) as [[n|]|]; destruct (truthy _); reflexivity.
  - destruct (is_transport_error e).
    + exists (finish (set_error (set_tag span http.STATUS_CODE (status_code_of e)) 1)),
        (Raise e), st', [SetTag http.STATUS_CODE (status_code_of e); SetError 1].
      split; [reflexivity|]. split; [reflexivity|].
      split; [cbn [finish set_error set_tag record_op ops]; now rewrite <- app_assoc|].
      split; [|reflexivity].
      intros key Hkey. apply String.eqb_neq in Hkey. rewrite String.eqb_sym in Hkey.
      unfold http.STATUS_CODE in *. cbn -[String.eqb]. now rewrite Hkey.
    + exists (finish span), (Raise e), st', [].
      split; [reflexivity|]. split; [reflexivity|].
      split; [cbn [finish ops]; now rewrite app_nil_r|]. split; reflexivity.
Qed.

(** X10: where the url and params tags of a traced, sampled call come
    from.  Before 8.0.0 the url tag is the positional url as given and the
    params tag encodes the [params] keyword argument, or the empty mapping
    when that is missing, [None] or empty; from 8.0.0 on both come from
    parsing the url, and the [params] keyword argument is not looked at. *)
Theorem url_and_params_tags_by_version (elasticsearch : @ESModule W) func
    instance pin t method url kwargs st span :
  traced_and_sampled config instance pin t ->
  tag_request config elasticsearch instance [method; url] kwargs
              (request_span config pin t) = (Return tt, span) ->
  exists final r st',
    _perform_request config elasticsearch func instance [method; url] kwargs st
    = (r, mkState (world st') (spans st' ++ [final]))
    /\ (is_es8 elasticsearch = false ->
        let given := kwargs_get kwargs "params" in
        exists encoded,
          urlencode (if truthy given then given else VDict []) = Return encoded
          /\ (truthy given = false -> encoded = EmptyString)
          /\ tag_values metadata.URL final = [VStr url]
          /\ tag_values metadata.PARAMS final = [VStr encoded])
    /\ (is_es8 elasticsearch = true ->
        exists mapping encoded,
          _parse_elasticsearch8_urlparams url = Return (path (urlparse url), mapping)
          /\ urlencode (VDict mapping) = Return encoded
          /\ tag_values metadata.URL final = [VStr (path (urlparse url))]
          /\ tag_values metadata.PARAMS final = [VStr encoded]).
Proof.
  intros Htr Htag.
  destruct (traced_call_tail elasticsearch func _ _ _ _ _ st _ Htr Htag)
    as (final & r & st' & tail & Hrun & _ & Hops & Htail & _).
  destruct (tag_request_completes _ _ _ _ _ _ _ Htag)
    as (m & u & url' & params & encoded & body_text & [= <- <-] & Hp & He & _ & Hops').
  exists final, r, st'. split; [exact Hrun|].
  assert (Htags : tag_values metadata.URL final = [VStr url']
                  /\ tag_values metadata.PARAMS final = [VStr encoded]).
  { unfold tag_values. rewrite Hops, Hops', request_span_ops. unfold tagging_ops.
    rewrite !tag_values_of_app, !Htail by discriminate.
    destruct (trace_query_string config), body_text; split; reflexivity. }
  destruct Htags as [Hurl Hparams]. unfold request_params in Hp. split.
  - intros H8 given. rewrite H8 in Hp. injection Hp as <- <-.
    exists encoded. split; [exact He|]. split; [|split; assumption].
    subst given. intros Hfalsy. rewrite Hfalsy in He. now injection He as <-.
  - intros H8. rewrite H8 in Hp.
    destruct (_parse_elasticsearch8_urlparams url) as [[p d]|e] eqn:Hparse;
      [|discriminate].
    cbn in Hp. injection Hp as <- <-.
    assert (Hpath : p = path (urlparse url)).
    { unfold _parse_elasticsearch8_urlparams in Hparse.
      destruct (nonempty_string _); [destruct (for_each _ _ _)|];
        cbn in Hparse; congruence. }
    subst p. exists d, encoded. repeat split; assumption.
Qed.

(** X11: the query-string tag of a traced, sampled call is set exactly
    when the [trace_query_string] option is on, and then to the very value
    of the params tag. *)
Theorem query_string_tag_follows_option (elasticsearch : @ESModule W) func
    instance pin t args kwargs st span :
  traced_and_sampled config instance pin t ->
  tag_request config elasticsearch instance args kwargs (request_span config pin t)
  = (Return tt, span) ->
  exists final r st',
    _perform_request config elasticsearch func instance args kwargs st
    = (r, mkState (world st') (spans st' ++ [final]))
    /\ tag_values http.QUERY_STRING final
       = if trace_query_string config then tag_values metadata.PARAMS final else [].
Proof.
  intros Htr Htag.
  destruct (traced_call_tail elasticsearch func _ _ _ _ _ st _ Htr Htag)
    as (final & r & st' & tail & Hrun & _ & Hops & Htail & _).
  destruct (tag_request_completes _ _ _ _ _ _ _ Htag)
    as (m & u & url' & params & encoded & body_text & _ & _ & _ & _ & Hops').
  exists final, r, st'. split; [exact Hrun|].
  unfold tag_values. rewrite Hops, Hops', request_span_ops. unfold tagging_ops.
  rewrite !tag_values_of_app, !Htail by discriminate.
  destruct (trace_query_string config), body_text; reflexivity.
Qed.

(** X12: after a successful delegation of a traced, sampled call, the
    status-code tag is set exactly when the result is a pair whose first
    item is truthy, to that item; this does not depend on whether the took
    extraction succeeds. *)
Theorem legacy_status_is_tagged (elasticsearch : @ESModule W) func instance pin t
    args kwargs st span result st' :
  traced_and_sampled config instance pin t ->
  tag_request config elasticsearch instance args kwargs (request_span config pin t)
  = (Return tt, span) ->
  func args kwargs st = (Return result, st') ->
  exists final,
    _perform_request config elasticsearch func instance args kwargs st
    = (Return result, mkState (world st') (spans st' ++ [final]))
    /\ (forall status data,
          result = VTuple [status; data] ->
          tag_values http.STATUS_CODE final = if truthy status then [status] else [])
    /\ ((forall status data, result <> VTuple [status; data]) ->
        tag_values http.STATUS_CODE final = []).
Proof.
  intros Htr Htag Hf.
  rewrite (perform_request_traced _ _ _ _ _ _ _ _ _ Htr), Htag, Hf.
  eexists. split; [reflexivity|].
  destruct (tagged_span_clean _ _ _ _ _ _ _ _ Htag) as (_ & _ & Hclean).
  assert (Hvalues : tag_values http.STATUS_CODE
                      (finish (tag_result elasticsearch result span))
                    = if truthy (fst (result_shape result))
                      then [fst (result_shape result)] else []).
  { unfold tag_values. cbn [finish ops].
    rewrite tag_result_ops, tag_values_of_app, Hclean. unfold result_ops.
    rewrite tag_values_of_app.
    destruct (took_metric elasticsearch (snd (result_shape result))) as [[n|]|e];
      destruct (truthy (fst (result_shape result))); reflexivity. }
  rewrite Hvalues. split.
  - intros status data ->. reflexivity.
  - intros Hshape.
    assert (Hnone : fst (result_shape result) = VNone).
    { unfold result_shape.
      destruct result as [| | | | |l| |]; try reflexivity.
      destruct l as [|a [|b [|c l]]]; try reflexivity.
      contradiction (Hshape a b). reflexivity. }
    rewrite Hnone. reflexivity.
Qed.

(** X13: in a traced, sampled call whose tagging completes, [quantize] is
    applied to the span exactly once: after the method, url and params
    tags, and before anything that depends on the outcome of the original
    call (status code, took metric, error flag). *)
Theorem quantize_runs_once_between (elasticsearch : @ESModule W) func instance
    pin t method url kwargs st span :
  traced_and_sampled config instance pin t ->
  tag_request config elasticsearch instance [method; url] kwargs
              (request_span config pin t) = (Return tt, span) ->
  exists final r st' before after,
    _perform_request config elasticsearch func instance [method; url] kwargs st
    = (r, mkState (world st') (spans st' ++ [final]))
    /\ ops final = (before ++ Quantize :: after)%list
    /\ existsb is_quantize before = false
    /\ existsb is_quantize after = false
    /\ tag_values_of metadata.METHOD before = [VStr method]
    /\ length (tag_values_of metadata.URL before) = 1%nat
    /\ length (tag_values_of metadata.PARAMS before) = 1%nat
    /\ tag_values_of http.STATUS_CODE before = []
    /\ metric_values_of metadata.TOOK before = []
    /\ error_values_of before = []
    /\ (forall key, key <> http.STATUS_CODE -> tag_values_of key after = []).
Proof.
  intros Htr Htag.
  destruct (traced_call_tail elasticsearch func _ _ _ _ _ st _ Htr Htag)
    as (final & r & st' & tail & Hrun & _ & Hops & Htail & Hq).
  destruct (tag_request_completes _ _ _ _ _ _ _ Htag)
    as (m & u & url' & params & encoded & body_text & [= <- <-] & _ & _ & _ & Hops').
  exists final, r, st',
    ([SetTag SPAN_MEASURED_KEY VNone;
      SetTag metadata.METHOD (VStr method);
      SetTag metadata.URL (VStr url');
      SetTag metadata.PARAMS (VStr encoded)]
     ++ (if trace_query_string config
         then [SetTag http.QUERY_STRING (VStr encoded)] else [])
     ++ match body_text with Some text => [SetTag metadata.BODY text] | None => [] end
     ++ [SetTag ANALYTICS_SAMPLE_RATE_KEY (analytics_sample_rate config)])%list,
    tail.
  split; [exact Hrun|]. split.
  { rewrite Hops, Hops', request_span_ops. unfold tagging_ops.
    destruct (trace_query_string config), body_text; reflexivity. }
  split; [destruct (trace_query_string config), body_text; reflexivity|].
  split; [exact Hq|].
  rewrite !tag_values_of_app, !metric_values_of_app, !error_values_of_app.
  destruct (trace_query_string config), body_text; repeat split; try reflexivity;
    exact Htail.
Qed.

(** X14: from 8.0.0 on the body of a GET or POST request must serialize to
    bytes: when [default_serializer.dumps] returns anything else, the
    traced, sampled call raises [AttributeError] for the missing [decode]
    and the original method is not called. *)
Theorem body_must_serialize_to_bytes (elasticsearch : @ESModule W) func instance
    pin t method url kwargs st url' params encoded s v :
  traced_and_sampled config instance pin t ->
  is_es8 elasticsearch = true ->
  is_get_or_post method = true ->
  request_params elasticsearch url kwargs = Return (url', params) ->
  urlencode params = Return encoded ->
  default_serializer instance = Some s ->
  dumps s (kwargs_get kwargs "body") = Return v ->
  (forall b, v <> VBytes b) ->
  exists final,
    _perform_request config elasticsearch func instance [method; url] kwargs st
    = (Raise (no_attribute v "decode"), mkState (world st) (spans st ++ [final]))
    /\ finished final = true
    /\ tag_values metadata.BODY final = [].
Proof.
  intros Htr H8 Hm Hp He Hs Hd Hv.
  rewrite (perform_request_traced _ _ _ _ _ _ _ _ _ Htr).
  unfold tag_request, serialize_body. rewrite Hp, He, Hm, H8, Hs, Hd.
  cbn [mbind outcome_bind obind].
  assert (Hdec : py_decode v = Raise (no_attribute v "decode")).
  { destruct v; try reflexivity. contradiction (Hv b). reflexivity. }
  rewrite Hdec. eexists. split; [reflexivity|]. split; [reflexivity|].
  unfold tag_values. cbn [finish ops].
  destruct (trace_query_string config); reflexivity.
Qed.

End InterceptorMore.

(** ** Further facts about the patch controller *)

Section PatchMore.
Context {W : Type} `{PyBuiltins}.
Variable config : Config.

Implicit Types (w : @World W) (name n : string).

Lemma lookup_update_other w name m' et n :
  n <> name ->
  sys_modules (mkWorld (<[name := m']> (sys_modules w)) et) !! n
  = sys_modules w !! n.
Proof. intros Hn. cbn [sys_modules]. now rewrite lookup_insert_ne by congruence. Qed.

Lemma resolved_update w name m' et :
  resolved_transport (mkWorld (<[name := m']> (sys_modules w)) et) name
  = match transport m' with Some t => Some t | None => et end.
Proof.
  unfold resolved_transport. cbn [sys_modules elastic_transport].
  now rewrite lookup_insert_eq.
Qed.

(** X15: when a variant without a [transport] attribute is patched while
    the companion module cannot be imported, [_patch] raises [ImportError]
    after it has set the flag: the variant now counts as patched although
    nothing was wrapped, so a later [_patch] returns at once and wraps
    nothing, even when the companion has become importable. *)
Theorem failed_import_leaves_flag_set w name m :
  sys_modules w !! name = Some m ->
  getattr_datadog_patch m = false ->
  transport m = None ->
  elastic_transport w = None ->
  exists w',
    _patch config name w = (Raise (ImportError "elastic_transport"), w')
    /\ patched w' name = true
    /\ elastic_transport w' = None
    /\ (forall n, n <> name -> sys_modules w' !! n = sys_modules w !! n)
    /\ (forall companion,
          _patch config name (mkWorld (sys_modules w') (Some companion))
          = (Return tt, mkWorld (sys_modules w') (Some companion))).
Proof.
  intros Hm Hflag Ht Het.
  eexists. split; [apply (_patch_import_error config _ _ _ Hm Hflag Ht Het)|].
  split; [rewrite patched_update, decide_True by reflexivity; reflexivity|].
  split; [reflexivity|].
  split; [intros n Hn; now apply lookup_update_other|].
  intros companion. apply _patch_noop. unfold patched. cbn [sys_modules].
  now rewrite lookup_insert_eq.
Qed.

(** X16: patching and then unpatching one variant, exactly.  [_patch]
    puts the interceptor of the variant around the method that was there
    and attaches a fresh pin to the transport class; a call through the new
    method is [_perform_request] around a call through the old one.
    [_unpatch] then puts the old method back and clears the flag, and
    leaves the pin that [_patch] attached. *)
Theorem patch_then_unpatch_variant w name m t :
  sys_modules w !! name = Some m ->
  getattr_datadog_patch m = false ->
  resolved_transport w name = Some t ->
  exists w1 w2,
    _patch config name w = (Return tt, w1)
    /\ patched w1 name = true
    /\ resolved_transport w1 name
       = Some (mkTransportModule
                 (FunctionWrapper (perform_request t) (_get_perform_request config m))
                 (Some Pin_new))
    /\ (forall instance,
          invoke (FunctionWrapper (perform_request t) (_get_perform_request config m))
                 instance
          = _perform_request config m (invoke (perform_request t) instance) instance)
    /\ _unpatch name w1 = (Return tt, w2)
    /\ patched w2 name = false
    /\ resolved_transport w2 name
       = Some (mkTransportModule (perform_request t) (Some Pin_new)).
Proof.
  intros Hm Hflag Hres. unfold resolved_transport in Hres. rewrite Hm in Hres.
  destruct (transport m) as [t'|] eqn:Ht.
  - injection Hres as ->.
    eexists _, _. split; [apply (_patch_own config _ _ _ _ Hm Hflag Ht)|].
    split; [rewrite patched_update, decide_True by reflexivity; reflexivity|].
    split; [rewrite resolved_update; reflexivity|].
    split; [reflexivity|].
    split.
    { eapply _unpatch_own.
      - cbn [sys_modules]. apply lookup_insert_eq.
      - reflexivity.
      - reflexivity.
      - reflexivity. }
    split; [rewrite patched_update, decide_True by reflexivity; reflexivity|].
    rewrite resolved_update. reflexivity.
  - eexists _, _. split; [apply (_patch_shared config _ _ _ _ Hm Hflag Ht Hres)|].
    split; [rewrite patched_update, decide_True by reflexivity; reflexivity|].
    split; [rewrite resolved_update; reflexivity|].
    split; [reflexivity|].
    split.
    { eapply _unpatch_shared.
      - cbn [sys_modules]. apply lookup_insert_eq.
      - reflexivity.
      - reflexivity.
      - reflexivity.
      - reflexivity. }
    split; [rewrite patched_update, decide_True by reflexivity; reflexivity|].
    rewrite resolved_update. reflexivity.
Qed.

Lemma module_kept_refl (m : @ESModule W) : module_kept m m.
Proof. split; reflexivity. Qed.

Lemma touches_only_refl names w : touches_only names w w.
Proof.
  split; [reflexivity|]. intros n.
  destruct (sys_modules w !! n); [apply module_kept_refl|exact I].
Qed.

Lemma touches_only_trans names1 names2 names w1 w2 w3 :
  (forall n, In n names1 -> In n names) ->
  (forall n, In n names2 -> In n names) ->
  touches_only names1 w1 w2 -> touches_only names2 w2 w3 ->
  touches_only names w1 w3.
Proof.
  intros Hsub1 Hsub2 [Ho1 Hk1] [Ho2 Hk2]. split.
  - intros n Hn. rewrite Ho2, Ho1; auto.
  - intros n. specialize (Hk1 n). specialize (Hk2 n).
    destruct (sys_modules w1 !! n) as [m1|], (sys_modules w2 !! n) as [m2|],
             (sys_modules w3 !! n) as [m3|]; try tauto.
    destruct Hk1 as [Hv1 Ht1], Hk2 as [Hv2 Ht2]. split; [congruence|tauto].
Qed.

Lemma touches_only_alter name (f : @ESModule W -> @ESModule W) w et :
  (forall m, module_kept m (f m)) ->
  touches_only [name] w (mkWorld (alter f name (sys_modules w)) et).
Proof.
  intros Hf. split.
  - intros n Hn. cbn [sys_modules]. rewrite lookup_alter_ne; [reflexivity|].
    intros ->. apply Hn. now left.
  - intros n. cbn [sys_modules]. rewrite lookup_alter.
    destruct (decide (name = n)) as [->|].
    + destruct (sys_modules w !! n); cbn; [apply Hf|exact I].
    + destruct (sys_modules w !! n); [apply module_kept_refl|exact I].
Qed.

Lemma touches_only_setattr name flag w :
  touches_only [name] w (setattr_datadog_patch name flag w).
Proof. apply touches_only_alter. intros m. split; reflexivity. Qed.

Lemma touches_only_assign r t w name :
  (r = ElasticTransport \/ (r = OwnTransport name /\ is_Some (deref r w))) ->
  touches_only [name] w (assign r t w).
Proof.
  intros [->|[-> Hd]].
  { split; [reflexivity|]. intros n. cbn [assign sys_modules].
    destruct (sys_modules w !! n); [apply module_kept_refl|exact I]. }
  unfold assign. split.
  - intros n Hn. cbn [sys_modules]. rewrite lookup_alter_ne; [reflexivity|].
    intros ->. apply Hn. now left.
  - intros n. cbn [sys_modules]. rewrite lookup_alter.
    destruct (decide (name = n)) as [->|].
    + cbn [deref] in Hd. destruct (sys_modules w !! n) as [m|]; cbn; [|exact I].
      cbn in Hd. destruct Hd as [t' Ht']. split; [reflexivity|].
      cbn. rewrite Ht'. split; discriminate.
    + destruct (sys_modules w !! n); [apply module_kept_refl|exact I].
Qed.

Lemma determine_ref name w r :
  _determine_transport_module name w = Return r ->
  r = ElasticTransport \/ (r = OwnTransport name /\ is_Some (deref r w)).
Proof.
  unfold _determine_transport_module.
  destruct (sys_modules w !! name) as [[v f [t|]]|] eqn:Hm.
  - intros [= <-]. right. split; [reflexivity|]. cbn. rewrite Hm. cbn. eauto.
  - destruct (elastic_transport w); [|discriminate]. intros [= <-]. now left.
  - destruct (elastic_transport w); [|discriminate]. intros [= <-]. now left.
Qed.

Lemma deref_assign r t w name :
  (r = ElasticTransport \/ (r = OwnTransport name /\ is_Some (deref r w))) ->
  r = ElasticTransport \/ (r = OwnTransport name /\ is_Some (deref r (assign r t w))).
Proof.
  intros [->|[-> Hd]]; [now left|]. right. split; [reflexivity|].
  cbn in *. rewrite lookup_alter_eq.
  destruct (sys_modules w !! name) as [m|]; cbn in *; [eauto|].
  destruct Hd; discriminate.
Qed.

Lemma touches_only_patch_step name w r w' :
  _patch config name w = (r, w') -> touches_only [name] w w'.
Proof.
  unfold _patch.
  destruct (sys_modules w !! name) as [m|] eqn:Hm;
    [|intros [= _ <-]; apply touches_only_refl].
  destruct (getattr_datadog_patch m); [intros [= _ <-]; apply touches_only_refl|].
  pose proof (touches_only_setattr name true w) as Hset.
  destruct (_determine_transport_module name (setattr_datadog_patch name true w))
    as [ref|e] eqn:Hd; [|intros [= _ <-]; exact Hset].
  apply determine_ref in Hd. intros [= _ <-].
  eapply (touches_only_trans [name] [name]); [auto|auto|exact Hset|].
  unfold Pin_onto, _w.
  destruct (deref ref (setattr_datadog_patch name true w)) as [t|] eqn:Hderef.
  2:{ rewrite Hderef. apply touches_only_refl. }
  rewrite <- Hderef in Hd.
  set (w1 := assign ref _ (setattr_datadog_patch name true w)).
  assert (H1 : touches_only [name] (setattr_datadog_patch name true w) w1)
    by (apply touches_only_assign; exact Hd).
  destruct (deref ref w1) as [t1|]; [|exact H1].
  eapply (touches_only_trans [name] [name]); [auto|auto|exact H1|].
  apply touches_only_assign. subst w1. apply deref_assign. exact Hd.
Qed.




(** The four ways [_patch] ends. *)
Lemma _patch_cases name w r w' :
  _patch config name w = (r, w') ->
  (r = Return tt /\ w' = w
   /\ (sys_modules w !! name = None \/ patched w name = true))
  \/ (r = Return tt /\ patched w name = false /\ uses_shared w name = false
      /\ elastic_transport w' = elastic_transport w)
  \/ (r = Return tt /\ patched w name = false /\ uses_shared w name = true
      /\ is_Some (elastic_transport w) /\ is_Some (elastic_transport w'))
  \/ (r = Raise (ImportError "elastic_transport")
      /\ patched w name = false /\ uses_shared w name = true
      /\ elastic_transport w = None /\ elastic_transport w' = None).
Proof.
  intros Hrun.
  destruct (sys_modules w !! name) as [m|] eqn:Hm.
  2:{ rewrite (_patch_not_installed config _ _ Hm) in Hrun.
      injection Hrun as <- <-. left. auto. }
  pose proof (patched_installed _ _ _ Hm) as Hp.
  pose proof (uses_shared_installed _ _ _ Hm) as Hu.
  destruct (getattr_datadog_patch m) eqn:Hflag.
  { rewrite (_patch_noop config) in Hrun by exact Hp.
    injection Hrun as <- <-. left. auto. }
  destruct (transport m) as [t|] eqn:Ht.
  - rewrite (_patch_own config _ _ _ _ Hm Hflag Ht) in Hrun.
    injection Hrun as <- <-. right. left. auto.
  - destruct (elastic_transport w) as [t|] eqn:Het.
    + rewrite (_patch_shared config _ _ _ _ Hm Hflag Ht Het) in Hrun.
      injection Hrun as <- <-. right. right. left.
      repeat split; try assumption; cbn; eauto.
    + rewrite (_patch_import_error config _ _ _ Hm Hflag Ht Het) in Hrun.
      injection Hrun as <- <-. right. right. right. auto.
Qed.

Lemma touches_only_views name w w' n :
  touches_only [name] w w' ->
  uses_shared w' n = uses_shared w n
  /\ (n <> name -> patched w' n = patched w n).
Proof.
  intros [Hother Hkept]. split.
  - specialize (Hkept n). unfold uses_shared.
    destruct (sys_modules w !! n) as [[v f t]|], (sys_modules w' !! n) as [[v' f' t']|];
      try tauto.
    destruct Hkept as [_ Ht]. cbn in Ht.
    destruct t, t'; try reflexivity; exfalso; destruct Ht as [A B];
      first [discriminate (A eq_refl) | discriminate (B eq_refl)].
  - intros Hn. unfold patched. rewrite Hother; [reflexivity|].
    intros [->|[]]. contradiction.
Qed.

Lemma for_modules_patch_raises names w e w' :
  for_modules (_patch config) names w = (Raise e, w') ->
  e = ImportError "elastic_transport"
  /\ elastic_transport w = None
  /\ exists name, In name names /\ uses_shared w name = true
                  /\ patched w name = false.
Proof.
  revert w. induction names as [|h rest IH]; intros w Hrun; simpl in Hrun;
    [discriminate|].
  destruct (_patch config h w) as [[[]|e1] w1] eqn:Hstep.
  - destruct (IH _ Hrun) as (-> & Het & name & Hin & Hu & Hp).
    pose proof (touches_only_patch_step _ _ _ _ Hstep) as Htouch.
    destruct (touches_only_views h w w1 name Htouch) as [Hu' _].
    destruct (patch_flags config _ _ _ _ Hstep) as (_ & Hmono & _).
    split; [reflexivity|]. split.
    + destruct (_patch_cases _ _ _ _ Hstep)
        as [(_ & -> & _)|[(_ & _ & _ & <-)|[(_ & _ & _ & _ & [? Hs])|(Hr & _)]]];
        try assumption; congruence.
    + exists name. split; [now right|]. split; [congruence|].
      destruct (patched w name) eqn:Hpw; [|reflexivity].
      rewrite (Hmono _ Hpw) in Hp. discriminate.
  - injection Hrun as <- <-.
    destruct (_patch_cases _ _ _ _ Hstep)
      as [(Hr & _)|[(Hr & _)|[(Hr & _)|(Hr & Hp & Hu & Het & _)]]];
      try discriminate.
    split; [now injection Hr|]. split; [exact Het|]. exists h. split; [now left|]. auto.
Qed.

Lemma for_modules_patch_must_raise names w name :
  elastic_transport w = None ->
  In name names -> uses_shared w name = true -> patched w name = false ->
  exists w', for_modules (_patch config) names w
             = (Raise (ImportError "elastic_transport"), w').
Proof.
  revert w. induction names as [|h rest IH]; intros w Het Hin Hu Hp; [destruct Hin|].
  simpl. destruct (_patch config h w) as [r w1] eqn:Hstep.
  pose proof (touches_only_patch_step _ _ _ _ Hstep) as Htouch.
  destruct (touches_only_views h w w1 name Htouch) as [Hu' Hp'].
  destruct (_patch_cases _ _ _ _ Hstep)
    as [(-> & -> & Hno)|[(-> & Hph & Huh & Het')|[(_ & _ & _ & [? Hs] & _)|(-> & _)]]].
  - destruct Hin as [->|Hin].
    + exfalso. destruct Hno as [Hno|Hno]; [|congruence].
      unfold uses_shared in Hu. rewrite Hno in Hu. discriminate.
    + apply (IH w Het Hin Hu Hp).
  - destruct Hin as [->|Hin]; [congruence|].
    destruct (decide (name = h)) as [->|Hne]; [congruence|].
    apply (IH w1); [congruence|exact Hin|congruence|].
    rewrite (Hp' Hne). exact Hp.
  - congruence.
  - eexists. reflexivity.
Qed.

(** X18: [patch()] raises exactly when the companion module cannot be
    imported while some installed variant that is not yet patched has no
    [transport] attribute of its own; the exception is then the
    [ImportError] of the companion, and in every other case [patch()]
    returns. *)
Theorem patch_raises_iff w :
  (exists e w', patch config w = (Raise e, w'))
  <-> (elastic_transport w = None
       /\ exists name, In name module_names /\ uses_shared w name = true
                       /\ patched w name = false).
Proof.
  unfold patch. split.
  - intros (e & w' & Hrun).
    destruct (for_modules_patch_raises _ _ _ _ Hrun) as (_ & Het & name & Hin & Hu & Hp).
    split; [exact Het|]. exists name. apply es_modules_In in Hin. tauto.
  - intros (Het & name & Hin & Hu & Hp).
    destruct (for_modules_patch_must_raise (_es_modules w) w name Het) as [w' Hrun];
      try assumption.
    + apply es_modules_In. split; [exact Hin|].
      unfold uses_shared in Hu. destruct (sys_modules w !! name); [eauto|discriminate].
    + eauto.
Qed.

Lemma wrap_with_app (l1 l2 : list (@ESModule W)) base :
  wrap_with config (l1 ++ l2) base = wrap_with config l1 (wrap_with config l2 base).
Proof. unfold wrap_with. apply fold_right_app. Qed.

Lemma shared_users_ext w w' names :
  (forall n, In n names -> sys_modules w' !! n = sys_modules w !! n) ->
  shared_users w' names = shared_users w names.
Proof.
  induction names as [|h rest IH]; intros Hsame; simpl; [reflexivity|].
  rewrite (Hsame h) by (now left).
  rewrite IH by (intros n Hn; apply Hsame; now right). reflexivity.
Qed.

Lemma for_modules_patch_shared names w t :
  List.NoDup names ->
  (forall n, In n names -> patched w n = false) ->
  elastic_transport w = Some t ->
  exists w',
    for_modules (_patch config) names w = (Return tt, w')
    /\ shared_method w'
       = Some (wrap_with config (rev (shared_users w names)) (perform_request t)).
Proof.
  intros Hnd. revert w t. induction Hnd as [|h rest Hh Hnd IH]; intros w t Hun Het.
  - exists w. split; [reflexivity|]. unfold shared_method. now rewrite Het.
  - simpl. destruct (sys_modules w !! h) as [m|] eqn:Hm.
    2:{ rewrite (_patch_not_installed config _ _ Hm).
        apply IH; [|exact Het]. intros n Hn. apply Hun. now right. }
    assert (Hflag : getattr_datadog_patch m = false).
    { rewrite <- (patched_installed _ _ _ Hm). apply Hun. now left. }
    assert (Hrest : forall m' et n, In n rest ->
               sys_modules (mkWorld (<[h := m']> (sys_modules w)) et) !! n
               = sys_modules w !! n).
    { intros m' et n Hn. apply lookup_update_other. intros ->. contradiction. }
    assert (Hun' : forall m' et n, In n rest ->
               patched (mkWorld (<[h := m']> (sys_modules w)) et) n = false).
    { intros m' et n Hn. unfold patched. rewrite (Hrest _ _ _ Hn).
      apply Hun. now right. }
    destruct m as [v f [own|]].
    + rewrite (_patch_own config _ _ _ _ Hm Hflag eq_refl).
      cbv beta iota.
      edestruct IH as (w' & Hrun & Hshared); [apply Hun'|exact Het|].
      exists w'. split; [exact Hrun|].
      rewrite Hshared, (shared_users_ext _ _ _ (Hrest _ _)). reflexivity.
    + rewrite (_patch_shared config _ _ _ _ Hm Hflag eq_refl Het).
      cbv beta iota.
      edestruct IH as (w' & Hrun & Hshared); [apply Hun'|reflexivity|].
      exists w'. split; [exact Hrun|].
      rewrite Hshared, (shared_users_ext _ _ _ (Hrest _ _)).
      cbn [perform_request rev]. rewrite wrap_with_app. reflexivity.
Qed.

Lemma for_modules_patch_installed names w :
  for_modules (_patch config)
              (filter (fun name => is_Some (sys_modules w !! name)) names) w
  = for_modules (_patch config) names w.
Proof.
  assert (Hgen : forall w0,
             (forall n, is_Some (sys_modules w0 !! n) <-> is_Some (sys_modules w !! n)) ->
             for_modules (_patch config)
                         (filter (fun name => is_Some (sys_modules w !! name)) names) w0
             = for_modules (_patch config) names w0).
  { induction names as [|h rest IH]; intros w0 Hinst; [reflexivity|].
    rewrite filter_cons. destruct (decide (is_Some (sys_modules w !! h))) as [Hh|Hh].
    - simpl. destruct (_patch config h w0) as [[[]|e] w1] eqn:Hstep; [|reflexivity].
      apply IH. intros n. destruct (patch_flags config _ _ _ _ Hstep) as (Hi & _ & _).
      rewrite Hi. apply Hinst.
    - simpl. rewrite _patch_not_installed.
      + apply IH. exact Hinst.
      + rewrite <- Hinst in Hh. now apply eq_None_not_Some. }
  apply Hgen. reflexivity.
Qed.

(** X19: on modules that are not patched, with the companion importable,
    [patch()] returns and leaves the companion's method under one
    interceptor for every installed variant without a [transport]
    attribute of its own: the variant patched last is outermost.  Two
    such variants therefore stack two interceptors on the same method. *)
Theorem patch_stacks_one_interceptor_per_sharing_variant w t :
  unpatched_world w ->
  elastic_transport w = Some t ->
  exists w',
    patch config w = (Return tt, w')
    /\ shared_method w'
       = Some (wrap_with config (rev (shared_users w module_names))
                         (perform_request t)).
Proof.
  intros Hun Het. unfold patch, _es_modules.
  rewrite for_modules_patch_installed.
  apply for_modules_patch_shared; [apply module_names_NoDup| |exact Het].
  unfold unpatched_world in Hun. rewrite List.Forall_forall in Hun. exact Hun.
Qed.

(** X20: how stacked interceptors behave on one call.  On an instance
    that is not traced the stack is invisible: the call is the call of the
    method underneath.  On a traced, sampled instance, when the tagging of
    every interceptor completes, the outcome and the world are those of
    the method underneath, and every interceptor of the stack has closed
    one span of its own. *)
Theorem stacked_interceptors_close_one_span_each
    (interceptors : list (@ESModule W)) base instance args kwargs st :
  (untraced instance ->
   invoke (wrap_with config interceptors base) instance args kwargs st
   = invoke base instance args kwargs st)
  /\ (forall pin t r st',
        traced_and_sampled config instance pin t ->
        Forall (fun elasticsearch =>
                  exists span,
                    tag_request config elasticsearch instance args kwargs
                                (request_span config pin t) = (Return tt, span))
               interceptors ->
        invoke base instance args kwargs st = (r, st') ->
        exists closed,
          invoke (wrap_with config interceptors base) instance args kwargs st
          = (r, mkState (world st') (spans st' ++ closed))
          /\ length closed = length interceptors
          /\ Forall (fun span => finished span = true) closed).
Proof.
  split.
  - intros Hun. induction interceptors as [|es l IH]; [reflexivity|].
    cbn [wrap_with fold_right invoke]. fold (wrap_with config l base).
    unfold _get_perform_request, _perform_request. unfold untraced in Hun.
    destruct (Pin_get_from instance) as [pin|]; [rewrite Hun|]; exact IH.
  - intros pin t r st' Htr Htags Hbase.
    induction Htags as [|es l (span & Htag) Htags IH].
    + exists []. split; [|split; [reflexivity|constructor]].
      cbn [wrap_with fold_right]. rewrite Hbase, app_nil_r.
      destruct st'. reflexivity.
    + destruct IH as (closed & Hrun & Hlen & Hfin).
      cbn [wrap_with fold_right invoke]. fold (wrap_with config l base).
      unfold _get_perform_request.
      rewrite (perform_request_traced config es _ instance pin t args kwargs st Htr),
        Htag, Hrun.
      destruct r as [result|e].
      * eexists (closed ++ [_])%list. split; [cbn [world spans]; now rewrite app_assoc|].
        split; [rewrite length_app; simpl; lia|].
        apply Forall_app. split; [exact Hfin|]. constructor; [reflexivity|constructor].
      * eexists (closed ++ [_])%list. split; [cbn [world spans]; now rewrite app_assoc|].
        split; [rewrite length_app; simpl; lia|].
        apply Forall_app. split; [exact Hfin|].
        constructor; [|constructor]. destruct (is_transport_error e); reflexivity.
Qed.

(** X21: the version gate looks at the major number only: for a version
    of three or more components whose second and third are not negative,
    a variant counts as 8.x exactly when its first component is at least
    8. *)
Theorem version_gate_is_major_number (elasticsearch : @ESModule W) a b c rest :
  __version__ elasticsearch = a :: b :: c :: rest ->
  0 <= b -> 0 <= c ->
  is_es8 elasticsearch = (8 <=? a).
Proof.
  intros Hv Hb Hc. unfold is_es8. rewrite Hv. cbn [tuple_ge].
  destruct (a =? 8) eqn:Ha.
  - apply Z.eqb_eq in Ha. subst a.
    destruct (b =? 0) eqn:Hb0.
    + destruct (c =? 0) eqn:Hc0; [destruct rest; reflexivity|].
      apply Z.eqb_neq in Hc0. cbn. apply Z.ltb_lt. lia.
    + apply Z.eqb_neq in Hb0. cbn. apply Z.ltb_lt. lia.
  - apply Z.eqb_neq in Ha.
    destruct (Z.ltb_spec 8 a), (Z.leb_spec 8 a); try reflexivity; lia.
Qed.

End PatchMore.

(** ** The further statements on the sample requests *)

Lemma enabled_call_closes_one_span_witness :
  exists r final st',
    sample_call elasticsearch7 answer_not_found unsampled_transport get_index text_body
    = (r, mkState (world st') (spans st' ++ [final]))
    /\ finished final = true
    /\ span_name final = "elasticsearch.query"
    /\ span_service final = Some "elasticsearch".
Proof.
  destruct (@enabled_call_closes_one_span requests sample_builtins sample_config
              elasticsearch7 answer_not_found unsampled_transport dropping_pin
              get_index text_body no_requests eq_refl eq_refl)
    as (r & final & st' & Hrun & Hfin & Hname & _ & Hsvc & _).
  exists r, final, st'. exact (conj Hrun (conj Hfin (conj Hname Hsvc))).
Defined.

Lemma unsampled_call_is_delegated_untagged_witness :
  sample_call elasticsearch8 answer_took_zero unsampled_transport
              ["GET"; "/my_index/_search?pretty"] no_kwargs
  = (Return (VDict [(VStr "took", VInt 0); (VStr "timed_out", VBool false)]),
     mkState ["GET /my_index/_search?pretty"]
             [finish (request_span sample_config dropping_pin dropping_tracer)]).
Proof.
  exact (proj1 (@unsampled_call_is_delegated_untagged requests sample_builtins
                  sample_config elasticsearch8 answer_took_zero unsampled_transport
                  dropping_pin dropping_tracer ["GET"; "/my_index/_search?pretty"]
                  no_kwargs no_requests _ (mkState ["GET /my_index/_search?pretty"] [])
                  eq_refl eq_refl eq_refl eq_refl eq_refl)).
Defined.

Lemma other_exception_passes_untagged_witness :
  sample_call elasticsearch7 answer_broken traced_transport put_index no_kwargs
  = (Raise (OtherError "RuntimeError" [VStr "connection pool is closed"]),
     mkState ["PUT /my_index"] [finish (sample_tagged elasticsearch7 put_index no_kwargs)])
  /\ error_values (finish (sample_tagged elasticsearch7 put_index no_kwargs)) = [].
Proof.
  destruct (@other_exception_passes_untagged requests sample_builtins sample_config
              elasticsearch7 answer_broken traced_transport sample_pin sample_tracer
              put_index no_kwargs no_requests
              (sample_tagged elasticsearch7 put_index no_kwargs)
              (OtherError "RuntimeError" [VStr "connection pool is closed"])
              (mkState ["PUT /my_index"] []))
    as (Hrun & Herr & _).
  - repeat split.
  - vm_compute. reflexivity.
  - reflexivity.
  - reflexivity.
  - exact (conj Hrun Herr).
Defined.

Lemma wrong_arity_aborts_traced_call_witness :
  exists msg,
    sample_call elasticsearch7 answer_took_zero traced_transport ["GET"] no_kwargs
    = (Raise (ValueError msg),
       mkState [] [finish (request_span sample_config sample_pin sample_tracer)]).
Proof.
  apply (@wrong_arity_aborts_traced_call requests sample_builtins sample_config
           elasticsearch7 answer_took_zero traced_transport sample_pin sample_tracer
           ["GET"] no_kwargs no_requests).
  - repeat split.
  - simpl. lia.
Defined.

Lemma parser_error_aborts_traced_call_witness :
  sample_call elasticsearch8 answer_took_zero traced_transport
              ["GET"; "/my_index/_search?a=b=c"] no_kwargs
  = (Raise (ValueError "too many values to unpack (expected 2)"),
     mkState [] [finish (request_span sample_config sample_pin sample_tracer)]).
Proof.
  apply (@parser_error_aborts_traced_call requests sample_builtins sample_config
           elasticsearch8 answer_took_zero traced_transport sample_pin sample_tracer
           "GET" "/my_index/_search?a=b=c" no_kwargs no_requests).
  - repeat split.
  - reflexivity.
  - reflexivity.
Defined.

Lemma url_and_params_tags_by_version_witness :
  (exists final r st',
      sample_call elasticsearch7 answer_not_found traced_transport get_index text_body
      = (r, mkState (world st') (spans st' ++ [final]))
      /\ tag_values metadata.URL final = [VStr "/test-index"]
      /\ tag_values metadata.PARAMS final = [VStr ""])
  /\ (exists final r st',
        sample_call elasticsearch8 answer_took_zero traced_transport get_search text_body
        = (r, mkState (world st') (spans st' ++ [final]))
        /\ tag_values metadata.URL final = [VStr "/ddtrace_index/_search"]
        /\ tag_values metadata.PARAMS final = [VStr "sort=name%3Adesc&size=100"]).
Proof.
  split.
  - destruct (@url_and_params_tags_by_version requests sample_builtins sample_config
                elasticsearch7 answer_not_found traced_transport sample_pin
                sample_tracer "GET" "/test-index" text_body no_requests
                (sample_tagged elasticsearch7 get_index text_body))
      as (final & r & st' & Hrun & Hold & _).
    + repeat split.
    + vm_compute. reflexivity.
    + destruct (Hold eq_refl) as (encoded & _ & Hempty & Hurl & Hparams).
      rewrite (Hempty eq_refl) in Hparams.
      exists final, r, st'. exact (conj Hrun (conj Hurl Hparams)).
  - destruct (@url_and_params_tags_by_version requests sample_builtins sample_config
                elasticsearch8 answer_took_zero traced_transport sample_pin
                sample_tracer "GET" search_url text_body no_requests
                (sample_tagged elasticsearch8 get_search text_body))
      as (final & r & st' & Hrun & _ & Hnew).
    + repeat split.
    + vm_compute. reflexivity.
    + destruct (Hnew eq_refl) as (mapping & encoded & Hparse & Henc & Hurl & Hparams).
      injection Hparse as <-. injection Henc as <-.
      exists final, r, st'. exact (conj Hrun (conj Hurl Hparams)).
Defined.

Lemma query_string_tag_follows_option_witness :
  exists final r st',
    sample_call elasticsearch8 answer_took_zero traced_transport get_search text_body
    = (r, mkState (world st') (spans st' ++ [final]))
    /\ tag_values http.QUERY_STRING final = tag_values metadata.PARAMS final.
Proof.
  destruct (@query_string_tag_follows_option requests sample_builtins sample_config
              elasticsearch8 answer_took_zero traced_transport sample_pin
              sample_tracer get_search text_body no_requests
              (sample_tagged elasticsearch8 get_search text_body))
    as (final & r & st' & Hrun & Htag).
  - repeat split.
  - vm_compute. reflexivity.
  - exists final, r, st'. exact (conj Hrun Htag).
Defined.

Lemma legacy_status_is_tagged_witness :
  exists final,
    sample_call elasticsearch7 answer_legacy_pair traced_transport put_index no_kwargs
    = (Return (VTuple [VInt 200; VDict [(VStr "took", VInt 3)]]),
       mkState ["PUT /my_index"] [final])
    /\ tag_values http.STATUS_CODE final = [VInt 200].
Proof.
  destruct (@legacy_status_is_tagged requests sample_builtins sample_config
              elasticsearch7 answer_legacy_pair traced_transport sample_pin
              sample_tracer put_index no_kwargs no_requests
              (sample_tagged elasticsearch7 put_index no_kwargs)
              (VTuple [VInt 200; VDict [(VStr "took", VInt 3)]])
              (mkState ["PUT /my_index"] []))
    as (final & Hrun & Hpair & _).
  - repeat split.
  - vm_compute. reflexivity.
  - reflexivity.
  - exists final. exact (conj Hrun (Hpair _ _ eq_refl)).
Defined.

Lemma quantize_runs_once_between_witness :
  exists final r st' before after,
    sample_call elasticsearch7 answer_not_found traced_transport get_index text_body
    = (r, mkState (world st') (spans st' ++ [final]))
    /\ ops final = (before ++ Quantize :: after)%list
    /\ existsb is_quantize before = false
    /\ existsb is_quantize after = false.
Proof.
  destruct (@quantize_runs_once_between requests sample_builtins sample_config
              elasticsearch7 answer_not_found traced_transport sample_pin
              sample_tracer "GET" "/test-index" text_body no_requests
              (sample_tagged elasticsearch7 get_index text_body))
    as (final & r & st' & before & after & Hrun & Hops & Hb & Ha & _).
  - repeat split.
  - vm_compute. reflexivity.
  - exists final, r, st', before, after.
    exact (conj Hrun (conj Hops (conj Hb Ha))).
Defined.

Lemma body_must_serialize_to_bytes_witness :
  exists final,
    sample_call elasticsearch8 answer_took_zero text_only_transport get_search text_body
    = (Raise (AttributeError "'str' object has no attribute 'decode'"),
       mkState [] [final])
    /\ finished final = true.
Proof.
  destruct (@body_must_serialize_to_bytes requests sample_builtins sample_config
              elasticsearch8 answer_took_zero text_only_transport sample_pin
              sample_tracer "GET" search_url text_body no_requests
              "/ddtrace_index/_search"
              (VDict [(VStr "sort", VStr "name:desc"); (VStr "size", VStr "100")])
              "sort=name%3Adesc&size=100" text_serializer (VStr "{}"))
    as (final & Hrun & Hfin & _).
  - repeat split.
  - reflexivity.
  - reflexivity.
  - reflexivity.
  - reflexivity.
  - reflexivity.
  - reflexivity.
  - intros b. discriminate.
  - exists final. exact (conj Hrun Hfin).
Defined.

Lemma failed_import_leaves_flag_set_witness :
  exists w',
    @_patch requests sample_builtins sample_config "elasticsearch8"
            world_without_companion
    = (Raise (ImportError "elastic_transport"), w')
    /\ patched w' "elasticsearch8" = true
    /\ elastic_transport w' = None.
Proof.
  destruct (@failed_import_leaves_flag_set requests sample_builtins sample_config
              world_without_companion "elasticsearch8" elasticsearch8)
    as (w' & Hrun & Hflag & Het & _).
  - vm_compute. reflexivity.
  - reflexivity.
  - reflexivity.
  - reflexivity.
  - exists w'. exact (conj Hrun (conj Hflag Het)).
Defined.

Lemma patch_then_unpatch_variant_witness :
  exists w1 w2,
    @_patch requests sample_builtins sample_config "elasticsearch7" sample_world
    = (Return tt, w1)
    /\ _unpatch "elasticsearch7" w1 = (Return tt, w2)
    /\ resolved_transport w2 "elasticsearch7"
       = Some (mkTransportModule (Original (fun _ => answer_took_zero)) (Some Pin_new)).
Proof.
  destruct (@patch_then_unpatch_variant requests sample_builtins sample_config
              sample_world "elasticsearch7" elasticsearch7
              (mkTransportModule (Original (fun _ => answer_took_zero)) None))
    as (w1 & w2 & Hpatch & _ & _ & _ & Hunpatch & _ & Hres).
  - vm_compute. reflexivity.
  - reflexivity.
  - vm_compute. reflexivity.
  - exists w1, w2. exact (conj Hpatch (conj Hunpatch Hres)).
Defined.


Lemma patch_stacks_one_interceptor_per_sharing_variant_witness :
  exists w',
    @patch requests sample_builtins sample_config sample_world = (Return tt, w')
    /\ shared_method w'
       = Some (FunctionWrapper
                 (FunctionWrapper (Original (fun _ => answer_not_found))
                    (@_get_perform_request requests sample_builtins sample_config
                                           elasticsearch8))
                 (@_get_perform_request requests sample_builtins sample_config
                                        elasticsearch8)).
Proof.
  destruct (@patch_stacks_one_interceptor_per_sharing_variant requests
              sample_builtins sample_config sample_world
              (mkTransportModule (Original (fun _ => answer_not_found)) None))
    as (w' & Hrun & Hshared).
  - unfold unpatched_world, module_names.
    repeat (constructor; [vm_compute; reflexivity|]). constructor.
  - reflexivity.
  - exists w'. split; [exact Hrun|]. rewrite Hshared.
    assert (Husers : shared_users sample_world module_names
                     = [elasticsearch8; elasticsearch8])
      by (vm_compute; reflexivity).
    rewrite Husers. reflexivity.
Defined.

Lemma stacked_interceptors_close_one_span_each_witness :
  exists closed,
    invoke (@wrap_with requests sample_builtins sample_config
                       [elasticsearch8; elasticsearch8]
                       (Original (fun _ => answer_took_zero)))
           traced_transport put_index no_kwargs no_requests
    = (Return (VDict [(VStr "took", VInt 0); (VStr "timed_out", VBool false)]),
       mkState ["PUT /my_index"] closed)
    /\ length closed = 2%nat.
Proof.
  destruct (@stacked_interceptors_close_one_span_each requests sample_builtins
              sample_config [elasticsearch8; elasticsearch8]
              (Original (fun _ => answer_took_zero)) traced_transport put_index
              no_kwargs no_requests) as [_ Hstack].
  destruct (Hstack sample_pin sample_tracer
              (Return (VDict [(VStr "took", VInt 0); (VStr "timed_out", VBool false)]))
              (mkState ["PUT /my_index"] []))
    as (closed & Hrun & Hlen & _).
  - repeat split.
  - constructor; [eexists; vm_compute; reflexivity|].
    constructor; [eexists; vm_compute; reflexivity|]. constructor.
  - reflexivity.
  - exists closed. exact (conj Hrun Hlen).
Defined.

Lemma version_gate_is_major_number_witness :
  is_es8 elasticsearch7 = false /\ is_es8 elasticsearch8 = true.
Proof.
  split.
  - apply (@version_gate_is_major_number requests elasticsearch7 7 17 9 []);
      [reflexivity|lia|lia].
  - apply (@version_gate_is_major_number requests elasticsearch8 8 0 0 []);
      [reflexivity|lia|lia].
Defined.


Lemma patch_raises_iff_witness :
  (exists e w', @patch requests sample_builtins sample_config world_without_companion
                = (Raise e, w'))
  /\ ~ (exists e w', @patch requests sample_builtins sample_config sample_world
                     = (Raise e, w')).
Proof.
  split.
  - apply (proj2 (@patch_raises_iff requests sample_builtins sample_config
                    world_without_companion)).
    split; [reflexivity|]. exists "elasticsearch8".
    split; [unfold module_names; simpl; tauto|]. split; vm_compute; reflexivity.
  - intros Hr.
    apply (proj1 (@patch_raises_iff requests sample_builtins sample_config
                    sample_world)) in Hr.
    destruct Hr as [Het _]. discriminate.
Defined.
